(** * MoistureController: the valve state machines of the three sketches

    The repository holds three Arduino sketches that drive one normally-closed
    water valve from a soil-moisture sensor:

    - [Sample]    : MoistureController.ino, re-evaluates on every change of the
                    moisture sample against a potentiometer-derived pair
                    (lowWater, highWater);
    - [Debounce]  : the comparator sketch with [valveOpen] and [debounceTimer];
    - [Stateless] : the comparator sketch whose valve routines write the pin
                    unconditionally.

    Globals become record fields, each [void f(void)] becomes a function on
    the record, values read from the hardware ([analogRead], [waitComp]) are
    arguments, and every call into the Arduino core or a peripheral library
    is appended to a log so that the order and number of hardware accesses
    can be stated. *)

From Stdlib Require Import ZArith List Bool Lia.
From Stdlib Require Import SpecFloat.
Import ListNotations.
Open Scope Z_scope.

(** ** The Arduino layer shared by the sketches *)

Module Arduino.

Inductive Level : Type := LOW | HIGH.
Inductive Edge : Type := CHANGE | RISING | FALLING.
Inductive Mode : Type := INPUT | OUTPUT.

Definition Level_eqb (a b : Level) : bool :=
  match a, b with
  | LOW, LOW | HIGH, HIGH => true
  | _, _ => false
  end.

Definition Edge_eqb (a b : Edge) : bool :=
  match a, b with
  | CHANGE, CHANGE | RISING, RISING | FALLING, FALLING => true
  | _, _ => false
  end.

(** The pin level that stands for a valve flag: HIGH drives the valve open. *)
Definition levelOf (open : bool) : Level := if open then HIGH else LOW.

(** The direction a handler re-arms for after an edge has been taken. *)
Definition opposite (e : Edge) : Edge :=
  match e with
  | RISING => FALLING
  | FALLING => RISING
  | CHANGE => CHANGE
  end.

(** An interrupt registered for [armedFor] runs on the physical edge [e]. *)
Definition triggers (armedFor e : Edge) : bool :=
  match armedFor with
  | CHANGE => true
  | _ => Edge_eqb armedFor e
  end.

Section Actions.
Variable Handler : Type.

(** One entry per call that leaves the sketch. *)
Inductive Action : Type :=
| NoInterrupts
| Interrupts
| PinMode (pin : Z) (m : Mode)
| DigitalWrite (pin : Z) (l : Level)
| AnalogRead (pin : Z)
| AttachInterrupt (pin : Z) (h : Handler) (e : Edge)
| CompSetOn
| CompWait (timeout : Z)
| CompEnableInterrupt (h : Handler) (e : Edge)
| PowerDown.

Definition isWrite (pin : Z) (a : Action) : option Level :=
  match a with
  | DigitalWrite p l => if p =? pin then Some l else None
  | _ => None
  end.

(** The levels written to [pin], newest first, from a newest-first log. *)
Fixpoint writesTo (pin : Z) (log : list Action) : list Level :=
  match log with
  | [] => []
  | a :: rest =>
      match isWrite pin a with
      | Some l => l :: writesTo pin rest
      | None => writesTo pin rest
      end
  end.

Definition isSensing (a : Action) : bool :=
  match a with
  | AnalogRead _ | CompWait _ => true
  | _ => false
  end.

Definition isArming (a : Action) : bool :=
  match a with
  | AttachInterrupt _ _ _ | CompEnableInterrupt _ _ => true
  | _ => false
  end.

(** Scanning a chronological trace: a LOW write to [pin] is met before
    any action selected by [guarded] and before any HIGH write to [pin]. *)
Fixpoint closedBefore (pin : Z) (guarded : Action -> bool)
         (trace : list Action) : bool :=
  match trace with
  | [] => false
  | a :: rest =>
      match isWrite pin a with
      | Some LOW => true
      | Some HIGH => false
      | None => if guarded a then false else closedBefore pin guarded rest
      end
  end.
End Actions.

Arguments NoInterrupts {Handler}.
Arguments Interrupts {Handler}.
Arguments PinMode {Handler} pin m.
Arguments DigitalWrite {Handler} pin l.
Arguments AnalogRead {Handler} pin.
Arguments AttachInterrupt {Handler} pin h e.
Arguments CompSetOn {Handler}.
Arguments CompWait {Handler} timeout.
Arguments CompEnableInterrupt {Handler} h e.
Arguments PowerDown {Handler}.
Arguments isWrite {Handler} pin a.
Arguments writesTo {Handler} pin log.
Arguments isSensing {Handler} a.
Arguments isArming {Handler} a.
Arguments closedBefore {Handler} pin guarded trace.

(** [long map(long x, long in_min, long in_max, long out_min, long out_max)]
    of the Arduino core; C division truncates, hence [Z.quot]. *)
Definition map (x in_min in_max out_min out_max : Z) : Z :=
  Z.quot ((x - in_min) * (out_max - out_min)) (in_max - in_min) + out_min.

(** *** Single-precision arithmetic

    [float] is IEEE binary32; the operations are those of the standard
    library's executable specification at this precision. *)
Definition prec : Z := 24.
Definition emax : Z := 128.

(** Conversion [int -> float]. *)
Definition float_of_int (n : Z) : spec_float :=
  binary_normalize prec emax n 0 false.

Definition fmul (x y : spec_float) : spec_float := SFmul prec emax x y.

(** Conversion [(int) f]: the fraction is discarded.  Meaningful on finite
    values that fit an [int]; zero is returned on the others. *)
Definition int_of_float (x : spec_float) : Z :=
  match x with
  | S754_finite s m e =>
      let a := match e with
               | Z0 => Zpos m
               | Zpos p => Zpos m * 2 ^ Zpos p
               | Zneg p => Zpos m / 2 ^ Zpos p
               end in
      if s then - a else a
  | _ => 0
  end.

(** Checking a boolean property on 0, 1, ..., n-1. *)
Fixpoint allBelow (n : nat) (p : Z -> bool) : bool :=
  match n with
  | O => true
  | S k => p (Z.of_nat k) && allBelow k p
  end.

(** No two consecutive entries of a list of written levels are equal. *)
Fixpoint alternating (l : list Level) : bool :=
  match l with
  | a :: (b :: _) as rest => negb (Level_eqb a b) && alternating rest
  | _ => true
  end.

End Arduino.

Import Arduino.

(** ** MoistureController.ino: the sample-triggered sketch *)

Module Sample.

Definition moistureSensorPin : Z := 14.   (* A0 *)
Definition valvePin : Z := 13.
Definition potPin : Z := 2.

(** The two functions the sketch registers as interrupt routines. *)
Inductive Handler : Type := setMoistureThreshold_isr | checkMoisture_isr.

(** [float levelDelta = 1.01]: the binary32 number nearest to 1.01. *)
Definition levelDelta : spec_float := S754_finite false 8472494 (-23).

Record State : Type := mkState {
  lowWater : Z;            (* volatile int lowWater = 0 *)
  highWater : Z;           (* volatile int highWater = 1 *)
  valveOpen : bool;        (* static bool valveOpen = false, in checkMoisture *)
  pin13 : Level;           (* level driven on valvePin *)
  log : list (Action Handler)   (* newest first *)
}.

(** State at reset; the level of the valve pin is not known. *)
Definition boot (lvl : Level) : State :=
  mkState 0 1 false lvl [].

Definition emit (a : Action Handler) (s : State) : State :=
  mkState (lowWater s) (highWater s) (valveOpen s) (pin13 s) (a :: log s).

Definition digitalWrite (l : Level) (s : State) : State :=
  mkState (lowWater s) (highWater s) (valveOpen s) l
          (DigitalWrite valvePin l :: log s).

Definition set_lowWater (v : Z) (s : State) : State :=
  mkState v (highWater s) (valveOpen s) (pin13 s) (log s).

Definition set_highWater (v : Z) (s : State) : State :=
  mkState (lowWater s) v (valveOpen s) (pin13 s) (log s).

Definition set_valveOpen (b : bool) (s : State) : State :=
  mkState (lowWater s) (highWater s) b (pin13 s) (log s).

Definition writes (s : State) : list Level := writesTo valvePin (log s).

(** [(int)(lowWater * levelDelta)] *)
Definition inflate (low : Z) : Z :=
  int_of_float (fmul (float_of_int low) levelDelta).

(** [potValue] is what [analogRead(potPin)] returns. *)
Definition setMoistureThreshold (potValue : Z) (s : State) : State :=
  let s := emit (AnalogRead potPin) s in
  let s := set_lowWater (map potValue 0 1023 0 1023) s in
  let s := set_highWater (inflate (lowWater s)) s in
  if highWater s <=? lowWater s
  then set_highWater (lowWater s + 1) s
  else s.

(** [reading] is what [analogRead(moistureSensorPin)] returns. *)
Definition checkMoisture (reading : Z) (s : State) : State :=
  let s := emit (AnalogRead moistureSensorPin) s in
  let moistureLevel := map reading 0 1023 0 1023 in
  if negb (valveOpen s) && (moistureLevel <? lowWater s) then
    set_valveOpen true (digitalWrite HIGH s)
  else if valveOpen s && (highWater s <=? moistureLevel) then
    set_valveOpen false (digitalWrite LOW s)
  else s.

Definition setup (potValue reading : Z) (s : State) : State :=
  let s := emit NoInterrupts s in
  let s := emit (PinMode potPin INPUT) s in
  let s := emit (AttachInterrupt potPin setMoistureThreshold_isr CHANGE) s in
  let s := emit (PinMode valvePin OUTPUT) s in
  let s := digitalWrite LOW s in
  let s := emit (PinMode moistureSensorPin INPUT) s in
  let s := emit (AttachInterrupt moistureSensorPin checkMoisture_isr CHANGE) s in
  let s := setMoistureThreshold potValue s in
  let s := checkMoisture reading s in
  emit Interrupts s.

Definition loop (s : State) : State := emit PowerDown s.

(** Arming of the routine that evaluates the moisture sample. *)
Definition armsEvaluator (a : Action Handler) : bool :=
  match a with
  | AttachInterrupt _ checkMoisture_isr _ => true
  | _ => false
  end.

(** What can happen once [setup] has returned: the two CHANGE interrupts,
    each with the value its routine then reads, and passes of [loop]. *)
Inductive Event : Type :=
| PotChange (potValue : Z)
| MoistureChange (reading : Z)
| Wake.

Definition step (ev : Event) (s : State) : State :=
  match ev with
  | PotChange potValue => setMoistureThreshold potValue s
  | MoistureChange reading => checkMoisture reading s
  | Wake => loop s
  end.

Definition run (evs : list Event) (s : State) : State :=
  fold_left (fun st ev => step ev st) evs s.

(** What holds of the valve between events. *)
Definition consistent (s : State) : Prop :=
  pin13 s = levelOf (valveOpen s) /\
  hd_error (writes s) = Some (pin13 s) /\
  alternating (writes s) = true /\
  lowWater s < highWater s.

End Sample.


(** ** The comparator sketch with a debounce timer *)

Module Debounce.

Definition CLOCK_SECONDS_PER_TICK : Z := 8.
Definition DEBOUNCE_DELAY_TIME : Z := (1 * 60) / CLOCK_SECONDS_PER_TICK.

Definition moistureSensorPin : Z := 6.
Definition potPin : Z := 7.
Definition valvePin : Z := 13.

(** The two comparator interrupt routines. *)
Inductive Handler : Type :=
| moistureLevelLowInterrupt_isr
| moistureLevelHighInterrupt_isr.

Record State : Type := mkState {
  valveOpen : bool;          (* volatile bool valveOpen = true *)
  debounceTimer : Z;         (* volatile unsigned long debounceTimer = 0 *)
  pin13 : Level;             (* level driven on valvePin *)
  armed : option (Handler * Edge);   (* routine held by the comparator *)
  log : list (Action Handler)        (* newest first *)
}.

(** State at reset; the level of the valve pin is not known. *)
Definition boot (lvl : Level) : State :=
  mkState true 0 lvl None [].

Definition emit (a : Action Handler) (s : State) : State :=
  mkState (valveOpen s) (debounceTimer s) (pin13 s) (armed s) (a :: log s).

Definition digitalWrite (l : Level) (s : State) : State :=
  mkState (valveOpen s) (debounceTimer s) l (armed s)
          (DigitalWrite valvePin l :: log s).

Definition set_valveOpen (b : bool) (s : State) : State :=
  mkState b (debounceTimer s) (pin13 s) (armed s) (log s).

Definition set_debounceTimer (t : Z) (s : State) : State :=
  mkState (valveOpen s) t (pin13 s) (armed s) (log s).

(** [analogComparator.enableInterrupt(h, e)] replaces the registered routine. *)
Definition enableInterrupt (h : Handler) (e : Edge) (s : State) : State :=
  mkState (valveOpen s) (debounceTimer s) (pin13 s) (Some (h, e))
          (CompEnableInterrupt h e :: log s).

Definition writes (s : State) : list Level := writesTo valvePin (log s).

Definition armedEdge (s : State) : option Edge :=
  option_map snd (armed s).

Definition openWaterValve (s : State) : State :=
  if negb (valveOpen s) then
    if debounceTimer s =? 0 then
      set_valveOpen true (digitalWrite HIGH s)
    else s
  else s.

Definition closeWaterValve (s : State) : State :=
  if valveOpen s then
    set_debounceTimer DEBOUNCE_DELAY_TIME
      (set_valveOpen false (digitalWrite LOW s))
  else s.

(** [comp] is what [analogComparator.waitComp(1)] returns. *)
Definition enableMoistureLevelInterrupts (comp : bool) (s : State) : State :=
  let s := emit (CompWait 1) s in
  if comp then
    enableInterrupt moistureLevelLowInterrupt_isr FALLING (closeWaterValve s)
  else
    enableInterrupt moistureLevelHighInterrupt_isr RISING (openWaterValve s).

Definition setup (comp : bool) (s : State) : State :=
  let s := emit NoInterrupts s in
  let s := emit (PinMode valvePin OUTPUT) s in
  let s := closeWaterValve s in
  let s := emit CompSetOn s in
  let s := enableMoistureLevelInterrupts comp s in
  emit Interrupts s.

(** One pass of [loop]: sleep, then count the timer down.  The timer is an
    [unsigned long], so the decrement is taken modulo 2^32. *)
Definition loop (s : State) : State :=
  let s := emit PowerDown s in
  if 0 <? debounceTimer s
  then set_debounceTimer ((debounceTimer s - 1) mod 2 ^ 32) s
  else s.

Definition moistureLevelLowInterrupt (s : State) : State :=
  openWaterValve (enableInterrupt moistureLevelHighInterrupt_isr RISING s).

Definition moistureLevelHighInterrupt (s : State) : State :=
  enableInterrupt moistureLevelLowInterrupt_isr FALLING (closeWaterValve s).

Definition dispatch (h : Handler) : State -> State :=
  match h with
  | moistureLevelLowInterrupt_isr => moistureLevelLowInterrupt
  | moistureLevelHighInterrupt_isr => moistureLevelHighInterrupt
  end.

(** The comparator output makes the edge [e]: the registered routine runs
    when it was registered for that edge. *)
Definition comparatorEdge (e : Edge) (s : State) : State :=
  match armed s with
  | Some (h, armedFor) => if triggers armedFor e then dispatch h s else s
  | None => s
  end.

(** What can happen once [setup] has returned. *)
Inductive Event : Type :=
| Wake                    (* one pass of [loop] *)
| Comparator (e : Edge).  (* an edge of the comparator output *)

Definition step (ev : Event) (s : State) : State :=
  match ev with
  | Wake => loop s
  | Comparator e => comparatorEdge e s
  end.

Definition run (evs : list Event) (s : State) : State :=
  fold_left (fun st ev => step ev st) evs s.

Definition isWake (ev : Event) : bool :=
  match ev with Wake => true | Comparator _ => false end.

Definition wakes (evs : list Event) : Z :=
  Z.of_nat (length (filter isWake evs)).

(** Calls of the two valve routines, and passes of [loop] between them. *)
Inductive Call : Type := Open | Close | Tick.

Definition call (c : Call) (s : State) : State :=
  match c with
  | Open => openWaterValve s
  | Close => closeWaterValve s
  | Tick => loop s
  end.

Definition calls (cs : list Call) (s : State) : State :=
  fold_left (fun st c => call c st) cs s.

(** Number of calls in [cs], run from [s], that change [valveOpen]. *)
Fixpoint transitions (cs : list Call) (s : State) : nat :=
  match cs with
  | [] => O
  | c :: rest =>
      (if Bool.eqb (valveOpen (call c s)) (valveOpen s) then O else 1%nat)
      + transitions rest (call c s)
  end.

(** The only two pairings the routines of this sketch ever register. *)
Definition steady (s : State) : Prop :=
  armed s = Some (moistureLevelLowInterrupt_isr, FALLING) \/
  armed s = Some (moistureLevelHighInterrupt_isr, RISING).

(** What holds of the valve, the timer and the comparator between events. *)
Definition consistent (s : State) : Prop :=
  pin13 s = levelOf (valveOpen s) /\
  hd_error (writes s) = Some (pin13 s) /\
  alternating (writes s) = true /\
  0 <= debounceTimer s <= DEBOUNCE_DELAY_TIME /\
  (valveOpen s = true -> debounceTimer s = 0) /\
  steady s.

Definition isRising (ev : Event) : bool :=
  match ev with
  | Comparator RISING => true
  | _ => false
  end.

End Debounce.


(** ** The comparator sketch without valve state *)

Module Stateless.

Definition moistureSensorPin : Z := 6.
Definition potPin : Z := 7.
Definition valvePin : Z := 13.

Inductive Handler : Type :=
| moistureLowInterrupt_isr
| moistureHighInterrupt_isr.

(** Built without DEBUG, the sketch has no variable of its own. *)
Record State : Type := mkState {
  pin13 : Level;
  armed : option (Handler * Edge);
  log : list (Action Handler)
}.

Definition boot (lvl : Level) : State := mkState lvl None [].

Definition emit (a : Action Handler) (s : State) : State :=
  mkState (pin13 s) (armed s) (a :: log s).

Definition digitalWrite (l : Level) (s : State) : State :=
  mkState l (armed s) (DigitalWrite valvePin l :: log s).

Definition enableInterrupt (h : Handler) (e : Edge) (s : State) : State :=
  mkState (pin13 s) (Some (h, e)) (CompEnableInterrupt h e :: log s).

Definition writes (s : State) : list Level := writesTo valvePin (log s).

Definition armedEdge (s : State) : option Edge :=
  option_map snd (armed s).

Definition closeWaterValve (s : State) : State := digitalWrite LOW s.

Definition openWaterValve (s : State) : State := digitalWrite HIGH s.

Definition setup (s : State) : State :=
  let s := emit NoInterrupts s in
  let s := emit (PinMode valvePin OUTPUT) s in
  let s := digitalWrite LOW s in
  let s := emit CompSetOn s in
  let s := enableInterrupt moistureLowInterrupt_isr FALLING s in
  emit Interrupts s.

Definition loop (s : State) : State := emit PowerDown s.

Definition moistureLowInterrupt (s : State) : State :=
  enableInterrupt moistureHighInterrupt_isr FALLING (openWaterValve s).

Definition moistureHighInterrupt (s : State) : State :=
  enableInterrupt moistureLowInterrupt_isr RISING (closeWaterValve s).

Definition dispatch (h : Handler) : State -> State :=
  match h with
  | moistureLowInterrupt_isr => moistureLowInterrupt
  | moistureHighInterrupt_isr => moistureHighInterrupt
  end.

Definition comparatorEdge (e : Edge) (s : State) : State :=
  match armed s with
  | Some (h, armedFor) => if triggers armedFor e then dispatch h s else s
  | None => s
  end.

Inductive Call : Type := Open | Close.

Definition call (c : Call) (s : State) : State :=
  match c with
  | Open => openWaterValve s
  | Close => closeWaterValve s
  end.

Definition calls (cs : list Call) (s : State) : State :=
  fold_left (fun st c => call c st) cs s.

(** The pairings in force once a first edge has been handled. *)
Definition steady (s : State) : Prop :=
  armed s = Some (moistureLowInterrupt_isr, RISING) \/
  armed s = Some (moistureHighInterrupt_isr, FALLING).

(** What can happen once [setup] has returned. *)
Inductive Event : Type :=
| Wake                    (* one pass of [loop] *)
| Comparator (e : Edge).  (* an edge of the comparator output *)

Definition step (ev : Event) (s : State) : State :=
  match ev with
  | Wake => loop s
  | Comparator e => comparatorEdge e s
  end.

Definition run (evs : list Event) (s : State) : State :=
  fold_left (fun st ev => step ev st) evs s.

(** The routine that will run next is the one that changes the pin. *)
Definition consistent (s : State) : Prop :=
  hd_error (writes s) = Some (pin13 s) /\
  alternating (writes s) = true /\
  ((pin13 s = LOW /\
    (armed s = Some (moistureLowInterrupt_isr, FALLING) \/
     armed s = Some (moistureLowInterrupt_isr, RISING)))
   \/
   (pin13 s = HIGH /\
    armed s = Some (moistureHighInterrupt_isr, FALLING))).

End Stateless.


(** * Properties *)

(** ** Arithmetic of the Arduino layer *)

Lemma map_same_range (x lo hi : Z) :
  lo < hi -> Arduino.map x lo hi lo hi = x.
Proof.
  intros Hlt. unfold Arduino.map.
  rewrite Z.quot_mul by lia. lia.
Qed.

Lemma map_adc_identity (x : Z) : Arduino.map x 0 1023 0 1023 = x.
Proof. apply map_same_range. lia. Qed.

Lemma allBelow_spec (n : nat) (p : Z -> bool) :
  allBelow n p = true -> forall z, 0 <= z < Z.of_nat n -> p z = true.
Proof.
  induction n as [|k IH]; intros Hall z Hz.
  - simpl in Hz. lia.
  - simpl in Hall. apply andb_prop in Hall. destruct Hall as [Hk Hrest].
    destruct (Z.eq_dec z (Z.of_nat k)) as [->|Hne].
    + exact Hk.
    + apply IH; [exact Hrest | lia].
Qed.

(** [levelDelta] is the correctly rounded quotient 101/100, and it sits
    below 1.01 by less than half a unit in the last place. *)
Lemma levelDelta_is_rounded_1_01 :
  SFdiv prec emax (float_of_int 101) (float_of_int 100) = Sample.levelDelta /\
  8472494 * 100 < 101 * 2 ^ 23 < 8472495 * 100 /\
  101 * 2 ^ 23 - 8472494 * 100 < 8472495 * 100 - 101 * 2 ^ 23.
Proof. vm_compute. repeat split; reflexivity. Qed.

(** On every ADC value the single-precision product, truncated, is the
    integer part of 1.01 times the value. *)
Lemma inflate_is_floor (low : Z) :
  0 <= low <= 1023 -> Sample.inflate low = low * 101 / 100.
Proof.
  intros Hr.
  assert (Hall : allBelow 1024
                   (fun z => Sample.inflate z =? z * 101 / 100) = true)
    by (vm_compute; reflexivity).
  apply Z.eqb_eq.
  apply (allBelow_spec 1024 _ Hall low). simpl. lia.
Qed.

(** ** The sample-triggered sketch *)

Section SampleFacts.
Import Sample.

Lemma setMoistureThreshold_fields (pot : Z) (s : State) :
  let s' := setMoistureThreshold pot s in
  lowWater s' = pot /\
  highWater s' = (if inflate pot <=? pot then pot + 1 else inflate pot) /\
  valveOpen s' = valveOpen s /\
  pin13 s' = pin13 s /\
  writes s' = writes s.
Proof.
  unfold setMoistureThreshold. cbn -[inflate Arduino.map Z.leb].
  rewrite map_adc_identity.
  destruct (inflate pot <=? pot); cbn; repeat split; reflexivity.
Qed.

(** The three outcomes of one evaluation, on the tracked flag, the pin and
    the writes issued. *)
Lemma checkMoisture_cases (r : Z) (s : State) :
  let s' := checkMoisture r s in
  lowWater s' = lowWater s /\ highWater s' = highWater s /\
  ((valveOpen s = false /\ r < lowWater s /\
    valveOpen s' = true /\ pin13 s' = HIGH /\ writes s' = HIGH :: writes s)
   \/
   (valveOpen s = true /\ highWater s <= r /\
    valveOpen s' = false /\ pin13 s' = LOW /\ writes s' = LOW :: writes s)
   \/
   ((valveOpen s = true \/ lowWater s <= r) /\
    (valveOpen s = false \/ r < highWater s) /\
    valveOpen s' = valveOpen s /\ pin13 s' = pin13 s /\ writes s' = writes s)).
Proof.
  unfold checkMoisture. cbn -[Arduino.map Z.ltb Z.leb].
  rewrite map_adc_identity.
  destruct (valveOpen s) eqn:Hv; cbn -[Z.ltb Z.leb].
  - destruct (Z.leb_spec (highWater s) r) as [Hge|Hlt]; cbn.
    + repeat split. right; left. repeat split; assumption.
    + repeat split. right; right. repeat split; auto.
  - destruct (Z.ltb_spec r (lowWater s)) as [Hlt|Hge]; cbn.
    + repeat split. left. repeat split; assumption.
    + repeat split. right; right. repeat split; auto.
Qed.

End SampleFacts.

(** C4. For every raw potentiometer reading in 0..1023, once
    [setMoistureThreshold] has run the low threshold is the reading, the high
    threshold is the low one scaled by the single-precision 1.01 and
    truncated (which on this range is the integer part of 1.01 * low), raised
    to low + 1 when that does not exceed low; so high > low strictly. *)
Theorem setMoistureThreshold_high_above_low :
  forall (s : Sample.State) (pot : Z),
    0 <= pot <= 1023 ->
    let s' := Sample.setMoistureThreshold pot s in
    Sample.lowWater s' = pot /\
    Sample.highWater s' = Z.max (pot + 1) (Sample.inflate pot) /\
    Sample.inflate pot = pot * 101 / 100 /\
    Sample.lowWater s' < Sample.highWater s'.
Proof.
  intros s pot Hr s'.
  destruct (setMoistureThreshold_fields pot s) as (Hlo & Hhi & _).
  fold s' in Hlo, Hhi.
  assert (Hmax : Sample.highWater s' = Z.max (pot + 1) (Sample.inflate pot)).
  { rewrite Hhi. destruct (Z.leb_spec (Sample.inflate pot) pot); lia. }
  repeat split.
  - exact Hlo.
  - exact Hmax.
  - apply inflate_is_floor; exact Hr.
  - rewrite Hlo, Hmax. lia.
Qed.

Lemma setMoistureThreshold_high_above_low_witness :
  0 <= 300 <= 1023 /\
  Sample.lowWater (Sample.setMoistureThreshold 300 (Sample.boot LOW)) = 300 /\
  Sample.highWater (Sample.setMoistureThreshold 300 (Sample.boot LOW)) = 303.
Proof.
  assert (Hr : 0 <= 300 <= 1023) by lia.
  destruct (setMoistureThreshold_high_above_low (Sample.boot LOW) 300 Hr)
    as (Hlo & Hhi & Hfl & _).
  split; [exact Hr|]. split; [exact Hlo|].
  rewrite Hhi, Hfl. reflexivity.
Defined.

(** C7. On every change notification [checkMoisture] applies exactly this
    rule to the sample and the thresholds: valve Closed and sample < low
    opens it; valve Open and sample >= high closes it; in every other case,
    samples inside the band included, the valve flag, the pin and the writes
    are left as they were.  The thresholds are never touched. *)
Theorem checkMoisture_rule :
  forall (s : Sample.State) (r : Z),
    0 <= r <= 1023 ->
    let s' := Sample.checkMoisture r s in
    (Sample.valveOpen s = false -> r < Sample.lowWater s ->
       Sample.valveOpen s' = true /\ Sample.pin13 s' = HIGH /\
       Sample.writes s' = HIGH :: Sample.writes s) /\
    (Sample.valveOpen s = true -> Sample.highWater s <= r ->
       Sample.valveOpen s' = false /\ Sample.pin13 s' = LOW /\
       Sample.writes s' = LOW :: Sample.writes s) /\
    ((Sample.valveOpen s = true \/ Sample.lowWater s <= r) ->
     (Sample.valveOpen s = false \/ r < Sample.highWater s) ->
       Sample.valveOpen s' = Sample.valveOpen s /\
       Sample.pin13 s' = Sample.pin13 s /\
       Sample.writes s' = Sample.writes s) /\
    Sample.lowWater s' = Sample.lowWater s /\
    Sample.highWater s' = Sample.highWater s.
Proof.
  intros s r _ s'.
  destruct (checkMoisture_cases r s) as (Hlo & Hhi & Hcase).
  fold s' in Hlo, Hhi, Hcase.
  split; [|split; [|split; [|split; assumption]]].
  - intros Hv Hr.
    destruct Hcase as [Ho|[Hc|Hn]]; [tauto | | ].
    + destruct Hc as (Hv' & _). congruence.
    + destruct Hn as ([Hv'|Hge] & _); [congruence | lia].
  - intros Hv Hr.
    destruct Hcase as [Ho|[Hc|Hn]]; [ | tauto | ].
    + destruct Ho as (Hv' & _). congruence.
    + destruct Hn as (_ & [Hv'|Hlt] & _); [congruence | lia].
  - intros Hno Hnc.
    destruct Hcase as [Ho|[Hc|Hn]]; [ | | tauto].
    + destruct Ho as (Hv' & Hlt & _).
      destruct Hno as [Hv|Hge]; [congruence | lia].
    + destruct Hc as (Hv' & Hge & _).
      destruct Hnc as [Hv|Hlt]; [congruence | lia].
Qed.

Lemma checkMoisture_rule_witness :
  let closed := Sample.mkState 300 303 false LOW [] in
  let opened := Sample.mkState 300 303 true HIGH [] in
  Sample.valveOpen (Sample.checkMoisture 250 closed) = true /\
  Sample.valveOpen (Sample.checkMoisture 310 opened) = false /\
  Sample.writes (Sample.checkMoisture 301 opened) = [].
Proof.
  intros closed opened.
  assert (H250 : 0 <= 250 <= 1023) by lia.
  assert (H310 : 0 <= 310 <= 1023) by lia.
  assert (H301 : 0 <= 301 <= 1023) by lia.
  destruct (checkMoisture_rule closed 250 H250) as (Hopen & _).
  destruct (checkMoisture_rule opened 310 H310) as (_ & Hclose & _).
  destruct (checkMoisture_rule opened 301 H301) as (_ & _ & Hkeep & _).
  split; [|split].
  - apply Hopen; [reflexivity | simpl; lia].
  - apply Hclose; [reflexivity | simpl; lia].
  - apply Hkeep; [left; reflexivity | right; simpl; lia].
Defined.

(** C10. The sample-triggered sketch keeps no debounce counter.  Whenever the
    valve is Closed and a sample below [lowWater] arrives, [checkMoisture]
    opens it in that very call; in particular a closing evaluation followed
    at once by a dry sample reopens the valve, the two writes being
    consecutive. *)
Theorem checkMoisture_opens_undelayed :
  forall (s : Sample.State) (rc r : Z),
    0 <= r <= 1023 ->
    r < Sample.lowWater s ->
    (Sample.valveOpen s = false ->
       let s' := Sample.checkMoisture r s in
       Sample.valveOpen s' = true /\ Sample.pin13 s' = HIGH /\
       Sample.writes s' = HIGH :: Sample.writes s) /\
    (Sample.valveOpen s = true -> Sample.highWater s <= rc ->
       let s1 := Sample.checkMoisture rc s in
       let s2 := Sample.checkMoisture r s1 in
       Sample.valveOpen s1 = false /\
       Sample.valveOpen s2 = true /\ Sample.pin13 s2 = HIGH /\
       Sample.writes s2 = HIGH :: LOW :: Sample.writes s).
Proof.
  intros s rc r _ Hdry.
  assert (Hopen : forall t, Sample.valveOpen t = false ->
                    r < Sample.lowWater t ->
                    Sample.valveOpen (Sample.checkMoisture r t) = true /\
                    Sample.pin13 (Sample.checkMoisture r t) = HIGH /\
                    Sample.writes (Sample.checkMoisture r t)
                    = HIGH :: Sample.writes t).
  { intros t Hv Hlt.
    destruct (checkMoisture_cases r t) as (_ & _ & [Ho|[Hc|Hn]]).
    - tauto.
    - destruct Hc as (Hv' & _). congruence.
    - destruct Hn as ([Hv'|Hge] & _); [congruence | lia]. }
  split.
  - intros Hv. apply Hopen; assumption.
  - intros Hv Hwet s1 s2.
    destruct (checkMoisture_cases rc s) as (Hlo & _ & Hcase).
    fold s1 in Hlo, Hcase.
    assert (Hclosed : Sample.valveOpen s1 = false /\
                      Sample.writes s1 = LOW :: Sample.writes s).
    { destruct Hcase as [Ho|[Hc|Hn]].
      - destruct Ho as (Hv' & _). congruence.
      - tauto.
      - destruct Hn as (_ & [Hv'|Hlt] & _); [congruence | lia]. }
    destruct Hclosed as (Hv1 & Hw1).
    destruct (Hopen s1 Hv1) as (Hv2 & Hp2 & Hw2).
    { rewrite Hlo. exact Hdry. }
    fold s2 in Hv2, Hp2, Hw2.
    rewrite Hw1 in Hw2. tauto.
Qed.

Lemma checkMoisture_opens_undelayed_witness :
  let opened := Sample.mkState 300 303 true HIGH [] in
  Sample.valveOpen (Sample.checkMoisture 200 (Sample.checkMoisture 310 opened))
  = true /\
  Sample.writes (Sample.checkMoisture 200 (Sample.checkMoisture 310 opened))
  = [HIGH; LOW].
Proof.
  intros opened.
  assert (H200 : 0 <= 200 <= 1023) by lia.
  assert (Hdry : 200 < Sample.lowWater opened) by (simpl; lia).
  destruct (checkMoisture_opens_undelayed opened 310 200 H200 Hdry)
    as (_ & Hreopen).
  assert (Hv : Sample.valveOpen opened = true) by reflexivity.
  assert (Hwet : Sample.highWater opened <= 310) by (simpl; lia).
  destruct (Hreopen Hv Hwet) as (_ & Hv2 & _ & Hw2).
  split; [exact Hv2 | exact Hw2].
Defined.

(** ** The debounce sketch *)

Section DebounceFacts.
Import Debounce.

Lemma DEBOUNCE_DELAY_TIME_value : DEBOUNCE_DELAY_TIME = 7.
Proof. reflexivity. Qed.

(** [openWaterValve] either performs the Closed-to-Open transition with one
    HIGH write, or returns its argument. *)
Lemma openWaterValve_cases (s : State) :
  (valveOpen s = false /\ debounceTimer s = 0 /\
   openWaterValve s = set_valveOpen true (digitalWrite HIGH s))
  \/
  ((valveOpen s = true \/ debounceTimer s <> 0) /\ openWaterValve s = s).
Proof.
  unfold openWaterValve.
  destruct (valveOpen s); cbn.
  - right. split; [left|]; reflexivity.
  - destruct (Z.eqb_spec (debounceTimer s) 0) as [Hz|Hnz].
    + left. repeat split. exact Hz.
    + right. split; [right; exact Hnz | reflexivity].
Qed.

(** [closeWaterValve] either performs the Open-to-Closed transition with one
    LOW write and loads the timer, or returns its argument. *)
Lemma closeWaterValve_cases (s : State) :
  (valveOpen s = true /\
   closeWaterValve s
   = set_debounceTimer DEBOUNCE_DELAY_TIME
       (set_valveOpen false (digitalWrite LOW s)))
  \/
  (valveOpen s = false /\ closeWaterValve s = s).
Proof.
  unfold closeWaterValve.
  destruct (valveOpen s); [left | right]; split; reflexivity.
Qed.

Lemma closeWaterValve_closed (s : State) :
  valveOpen (closeWaterValve s) = false.
Proof.
  destruct (closeWaterValve_cases s) as [(_ & ->)|(Hv & ->)];
    [reflexivity | exact Hv].
Qed.

Lemma loop_fields (s : State) :
  valveOpen (loop s) = valveOpen s /\
  pin13 (loop s) = pin13 s /\
  armed (loop s) = armed s /\
  writes (loop s) = writes s /\
  debounceTimer (loop s)
  = (if 0 <? debounceTimer s
     then (debounceTimer s - 1) mod 2 ^ 32
     else debounceTimer s).
Proof.
  unfold loop. cbn -[Z.ltb Z.modulo Z.pow].
  destruct (0 <? debounceTimer s); cbn -[Z.modulo Z.pow];
    repeat split; reflexivity.
Qed.

(** One pass of [loop] never raises the timer, lowers it by at least one
    while it is positive, and keeps it at zero once there. *)
Lemma loop_timer_bounds (s : State) :
  0 <= debounceTimer s ->
  0 <= debounceTimer (loop s) /\
  (0 < debounceTimer s -> debounceTimer (loop s) <= debounceTimer s - 1) /\
  (debounceTimer s = 0 -> debounceTimer (loop s) = 0).
Proof.
  intros Hnn.
  destruct (loop_fields s) as (_ & _ & _ & _ & Ht). rewrite Ht.
  destruct (Z.ltb_spec 0 (debounceTimer s)) as [Hpos|Hz].
  - pose proof (Z.mod_pos_bound (debounceTimer s - 1) (2 ^ 32)
                  ltac:(lia)) as Hb.
    pose proof (Z.mod_le (debounceTimer s - 1) (2 ^ 32)
                  ltac:(lia) ltac:(lia)) as Hle.
    repeat split; lia.
  - repeat split; lia.
Qed.

(** Below 2^32 the decrement is exact. *)
Lemma loop_timer_exact (s : State) :
  0 < debounceTimer s < 2 ^ 32 ->
  debounceTimer (loop s) = debounceTimer s - 1.
Proof.
  intros Hr.
  destruct (loop_fields s) as (_ & _ & _ & _ & Ht). rewrite Ht.
  destruct (Z.ltb_spec 0 (debounceTimer s)) as [Hpos|Hz]; [|lia].
  apply Z.mod_small. lia.
Qed.

End DebounceFacts.

Section DebounceGate.
Import Debounce.

Lemma calls_app (cs ds : list Call) (s : State) :
  calls (cs ++ ds) s = calls ds (calls cs s).
Proof. unfold calls. apply fold_left_app. Qed.

Lemma call_timer_nonneg (c : Call) (s : State) :
  0 <= debounceTimer s -> 0 <= debounceTimer (call c s).
Proof.
  intros Hnn. destruct c; cbn [call].
  - destruct (openWaterValve_cases s) as [(_ & _ & ->)|(_ & ->)];
      cbn; exact Hnn.
  - destruct (closeWaterValve_cases s) as [(_ & ->)|(_ & ->)];
      [cbn; lia | exact Hnn].
  - apply loop_timer_bounds; exact Hnn.
Qed.

(** Without a call of [closeWaterValve], "Closed, or timer expired" is kept
    by every call. *)
Lemma call_keeps_closed_or_expired (c : Call) (s : State) :
  c <> Close ->
  0 <= debounceTimer s ->
  valveOpen s = false \/ debounceTimer s = 0 ->
  valveOpen (call c s) = false \/ debounceTimer (call c s) = 0.
Proof.
  intros Hc Hnn Hinv. destruct c; cbn [call]; [ | congruence | ].
  - destruct (openWaterValve_cases s) as [(_ & Hz & ->)|(_ & ->)].
    + right. cbn. exact Hz.
    + exact Hinv.
  - destruct (loop_fields s) as (Hv & _).
    destruct Hinv as [Hclosed|Hz].
    + left. congruence.
    + right. apply loop_timer_bounds; assumption.
Qed.

Lemma calls_keep_closed_or_expired (cs : list Call) :
  forall s : State,
    ~ In Close cs ->
    0 <= debounceTimer s ->
    valveOpen s = false \/ debounceTimer s = 0 ->
    0 <= debounceTimer (calls cs s) /\
    (valveOpen (calls cs s) = false \/ debounceTimer (calls cs s) = 0).
Proof.
  induction cs as [|c cs IH]; intros s Hno Hnn Hinv.
  - cbn. split; assumption.
  - change (calls (c :: cs) s) with (calls cs (call c s)).
    apply IH.
    + intros Hin. apply Hno. right. exact Hin.
    + apply call_timer_nonneg. exact Hnn.
    + apply call_keeps_closed_or_expired; try assumption.
      intros ->. apply Hno. left. reflexivity.
Qed.

(** Enough passes of [loop] bring the timer to zero. *)
Lemma ticks_expire_timer (n : nat) :
  forall s : State,
    0 <= debounceTimer s <= Z.of_nat n ->
    debounceTimer (calls (repeat Tick n) s) = 0.
Proof.
  induction n as [|n IH]; intros s Hr.
  - cbn. cbn in Hr. lia.
  - change (calls (repeat Tick (S n)) s) with (calls (repeat Tick n) (loop s)).
    apply IH.
    destruct (loop_timer_bounds s) as (Hnn & Hdec & Hz); [lia|].
    destruct (Z.eq_dec (debounceTimer s) 0) as [H0|Hpos].
    + rewrite (Hz H0). lia.
    + specialize (Hdec ltac:(lia)). lia.
Qed.

Lemma ticks_keep_valve (n : nat) :
  forall s : State,
    valveOpen (calls (repeat Tick n) s) = valveOpen s /\
    writes (calls (repeat Tick n) s) = writes s.
Proof.
  induction n as [|n IH]; intros s.
  - cbn. split; reflexivity.
  - change (calls (repeat Tick (S n)) s) with (calls (repeat Tick n) (loop s)).
    destruct (IH (loop s)) as (Hv & Hw).
    destruct (loop_fields s) as (Hv' & _ & _ & Hw' & _).
    split; congruence.
Qed.

End DebounceGate.

(** C2. Take any state (timer non-negative, as an [unsigned long] is), call
    [closeWaterValve], and let any number of [openWaterValve] calls and
    passes of [loop] follow.  At the state [t] reached: while the timer is
    above zero the valve is Closed and [openWaterValve] returns [t]
    unchanged, so nothing is written; passes of [loop] at least as many as
    the timer bring it to zero without touching the valve; and with the
    timer at zero and the valve Closed, [openWaterValve] writes HIGH once
    and sets the valve Open.  The routine run on the dry-going comparator
    edge, [moistureLevelLowInterrupt], opens the valve there as well. *)
Theorem open_suppressed_until_timer_expires :
  forall (s : Debounce.State) (cs : list Debounce.Call),
    0 <= Debounce.debounceTimer s ->
    ~ In Debounce.Close cs ->
    let t := Debounce.calls cs (Debounce.closeWaterValve s) in
    (0 < Debounce.debounceTimer t ->
       Debounce.valveOpen t = false /\ Debounce.openWaterValve t = t) /\
    (forall n : nat,
       Debounce.debounceTimer t <= Z.of_nat n ->
       let t' := Debounce.calls (repeat Debounce.Tick n) t in
       Debounce.debounceTimer t' = 0 /\
       Debounce.valveOpen t' = Debounce.valveOpen t /\
       Debounce.writes t' = Debounce.writes t) /\
    (Debounce.debounceTimer t = 0 -> Debounce.valveOpen t = false ->
       let u := Debounce.openWaterValve t in
       Debounce.valveOpen u = true /\ Debounce.pin13 u = HIGH /\
       Debounce.writes u = HIGH :: Debounce.writes t) /\
    (Debounce.debounceTimer t = 0 -> Debounce.valveOpen t = false ->
       let u := Debounce.moistureLevelLowInterrupt t in
       Debounce.valveOpen u = true /\ Debounce.pin13 u = HIGH /\
       Debounce.writes u = HIGH :: Debounce.writes t).
Proof.
  intros s cs Hnn Hno t.
  assert (Hnn1 : 0 <= Debounce.debounceTimer (Debounce.closeWaterValve s)).
  { apply (call_timer_nonneg Debounce.Close). exact Hnn. }
  destruct (calls_keep_closed_or_expired cs (Debounce.closeWaterValve s)
              Hno Hnn1 (or_introl (closeWaterValve_closed s)))
    as (Hnnt & Hinv).
  fold t in Hnnt, Hinv.
  split; [|split; [|split]].
  - intros Hpos.
    assert (Hclosed : Debounce.valveOpen t = false)
      by (destruct Hinv as [Hc|Hz]; [exact Hc | lia]).
    split; [exact Hclosed|].
    destruct (openWaterValve_cases t) as [(_ & Hz & _)|(_ & Heq)];
      [lia | exact Heq].
  - intros n Hle t'.
    split; [apply ticks_expire_timer; lia | apply ticks_keep_valve].
  - intros Hz Hclosed u.
    destruct (openWaterValve_cases t) as [(_ & _ & Heq)|([Hv|Hnz] & _)];
      [ | congruence | contradiction].
    subst u. rewrite Heq. cbn. repeat split; reflexivity.
  - intros Hz Hclosed u. subst u.
    unfold Debounce.moistureLevelLowInterrupt, Debounce.openWaterValve.
    cbn. rewrite Hclosed, Hz. cbn. repeat split; reflexivity.
Qed.

Lemma open_suppressed_until_timer_expires_witness :
  let s := Debounce.mkState true 0 HIGH None [] in
  let t := Debounce.calls [Debounce.Open; Debounce.Tick; Debounce.Open]
                          (Debounce.closeWaterValve s) in
  (Debounce.valveOpen t = false /\ Debounce.openWaterValve t = t) /\
  Debounce.debounceTimer (Debounce.calls (repeat Debounce.Tick 6) t) = 0 /\
  Debounce.valveOpen
    (Debounce.openWaterValve
       (Debounce.calls (repeat Debounce.Tick 7) (Debounce.closeWaterValve s)))
  = true.
Proof.
  intros s t.
  assert (Hnn : 0 <= Debounce.debounceTimer s) by (simpl; lia).
  assert (Hno : ~ In Debounce.Close
                  [Debounce.Open; Debounce.Tick; Debounce.Open]).
  { simpl. intros [H|[H|[H|H]]]; try discriminate H; exact H. }
  destruct (open_suppressed_until_timer_expires s _ Hnn Hno)
    as (Hgate & Hticks & _).
  fold t in Hgate, Hticks.
  assert (Hno7 : ~ In Debounce.Close (repeat Debounce.Tick 7)).
  { simpl. intros H. repeat destruct H as [H|H]; try discriminate H; exact H. }
  destruct (open_suppressed_until_timer_expires s _ Hnn Hno7)
    as (_ & _ & Hopen & _).
  split; [|split].
  - apply Hgate. vm_compute. reflexivity.
  - apply (Hticks 6%nat). vm_compute. discriminate.
  - apply Hopen; vm_compute; reflexivity.
Defined.

Section DebounceBoot.
Import Debounce.

Lemma comparatorEdge_fields_closed (e : Edge) (s : State) :
  valveOpen s = false ->
  debounceTimer s <> 0 ->
  valveOpen (comparatorEdge e s) = false /\
  debounceTimer (comparatorEdge e s) = debounceTimer s /\
  pin13 (comparatorEdge e s) = pin13 s /\
  writes (comparatorEdge e s) = writes s.
Proof.
  intros Hclosed Hnz. unfold comparatorEdge.
  destruct (armed s) as [[h armedFor]|]; [|repeat split; assumption].
  destruct (triggers armedFor e); [|repeat split; assumption].
  destruct h; cbn [dispatch].
  - unfold moistureLevelLowInterrupt, openWaterValve. cbn.
    rewrite Hclosed. cbn.
    destruct (Z.eqb_spec (debounceTimer s) 0) as [Hz|_]; [contradiction|].
    cbn. repeat split; assumption.
  - unfold moistureLevelHighInterrupt, closeWaterValve.
    rewrite Hclosed. cbn. repeat split; assumption.
Qed.

(** While fewer passes of [loop] have run than the timer holds, no event
    sequence opens the valve or writes the pin. *)
Lemma run_stays_closed (evs : list Event) :
  forall s : State,
    valveOpen s = false ->
    debounceTimer s < 2 ^ 32 ->
    wakes evs < debounceTimer s ->
    valveOpen (run evs s) = false /\
    pin13 (run evs s) = pin13 s /\
    writes (run evs s) = writes s.
Proof.
  induction evs as [|ev evs IH]; intros s Hclosed Hlt Hw.
  - cbn. repeat split. exact Hclosed.
  - change (run (ev :: evs) s) with (run evs (step ev s)).
    assert (Hpos : 0 < debounceTimer s).
    { unfold wakes in Hw. lia. }
    destruct ev as [|e]; cbn [step].
    + destruct (loop_fields s) as (Hv & Hp & _ & Hwr & _).
      pose proof (loop_timer_exact s ltac:(lia)) as Ht.
      destruct (IH (loop s)) as (Hv' & Hp' & Hw').
      * congruence.
      * lia.
      * unfold wakes in *. cbn [filter isWake length] in Hw.
        rewrite Nat2Z.inj_succ in Hw. lia.
      * repeat split; congruence.
    + destruct (comparatorEdge_fields_closed e s Hclosed ltac:(lia))
        as (Hv & Ht & Hp & Hwr).
      destruct (IH (comparatorEdge e s)) as (Hv' & Hp' & Hw').
      * exact Hv.
      * lia.
      * unfold wakes in *. cbn [filter isWake] in Hw. lia.
      * repeat split; congruence.
Qed.

(** [setup] is the start-up probe run on the state left by the forced
    close; in that state the valve is Closed and the timer is loaded. *)
Lemma setup_probe_state (comp : bool) (lvl : Level) :
  let pre := emit CompSetOn
               (closeWaterValve
                  (emit (PinMode valvePin OUTPUT)
                     (emit NoInterrupts (boot lvl)))) in
  setup comp (boot lvl)
  = emit Interrupts (enableMoistureLevelInterrupts comp pre) /\
  valveOpen pre = false /\
  debounceTimer pre = DEBOUNCE_DELAY_TIME /\
  pin13 pre = LOW /\
  writes pre = [LOW].
Proof. cbn. repeat split; reflexivity. Qed.

Lemma setup_fields (comp : bool) (lvl : Level) :
  let s := setup comp (boot lvl) in
  valveOpen s = false /\
  debounceTimer s = DEBOUNCE_DELAY_TIME /\
  pin13 s = LOW /\
  writes s = [LOW] /\
  armed s = Some (if comp
                  then (moistureLevelLowInterrupt_isr, FALLING)
                  else (moistureLevelHighInterrupt_isr, RISING)) /\
  length (filter isSensing (log s)) = 1%nat.
Proof. destruct comp, lvl; cbn; repeat split; reflexivity. Qed.

End DebounceBoot.

(** C1 (defect of the debounce sketch).  Booting with the comparator reading
    dry: the probe reads the comparator once, calls [openWaterValve] and
    registers the closing routine for RISING, but the forced close earlier in
    [setup] has loaded the timer, so the call is suppressed and the sketch
    ends [setup] with the valve Closed and the pin LOW.  Run on a state whose
    timer is zero, the same probe does open the valve. *)
Theorem setup_dry_leaves_valve_closed :
  forall lvl : Level,
    let s := Debounce.setup false (Debounce.boot lvl) in
    length (filter isSensing (Debounce.log s)) = 1%nat /\
    Debounce.armed s
    = Some (Debounce.moistureLevelHighInterrupt_isr, RISING) /\
    Debounce.valveOpen s = false /\
    Debounce.pin13 s = LOW /\
    Debounce.writes s = [LOW] /\
    Debounce.debounceTimer s = 7 /\
    Debounce.valveOpen
      (Debounce.enableMoistureLevelInterrupts false
         (Debounce.mkState false 0 LOW None []))
    = true.
Proof.
  intros lvl s.
  destruct (setup_fields false lvl) as (Hv & Ht & Hp & Hw & Ha & Hn).
  fold s in Hv, Ht, Hp, Hw, Ha, Hn.
  split; [exact Hn|]. split; [exact Ha|]. split; [exact Hv|].
  split; [exact Hp|]. split; [exact Hw|]. split; [exact Ht|].
  reflexivity.
Qed.

(** C6, as the sketch has it.  Booting with the comparator reading wet, the
    probe leaves the valve Closed (pin LOW, the only write being the forced
    close) and registers the opening routine for the FALLING edge. *)
Theorem setup_wet_closed_falling_armed :
  forall lvl : Level,
    let s := Debounce.setup true (Debounce.boot lvl) in
    Debounce.valveOpen s = false /\
    Debounce.pin13 s = LOW /\
    Debounce.writes s = [LOW] /\
    Debounce.armed s
    = Some (Debounce.moistureLevelLowInterrupt_isr, FALLING) /\
    Debounce.armedEdge s = Some FALLING.
Proof.
  intros lvl s.
  destruct (setup_fields true lvl) as (Hv & _ & Hp & Hw & Ha & _).
  fold s in Hv, Hp, Hw, Ha.
  split; [exact Hv|]. split; [exact Hp|]. split; [exact Hw|].
  split; [exact Ha|].
  unfold Debounce.armedEdge. rewrite Ha. reflexivity.
Qed.

(** C6, counterexample: after a wet start-up probe the armed edge is not
    RISING. *)
Lemma setup_wet_not_rising_armed :
  Debounce.armedEdge (Debounce.setup true (Debounce.boot HIGH))
  <> Some RISING.
Proof. cbn. discriminate. Qed.

(** C9. In the debounce sketch [valveOpen] starts true, so the close forced
    by [setup] is a real transition: the probe runs on a state whose timer
    already holds DEBOUNCE_DELAY_TIME = 7 and [setup] ends Closed with that
    value, whatever the comparator reads.  From there no sequence of
    comparator edges and passes of [loop] with fewer than 7 passes opens the
    valve or writes the pin; with 7 passes done an edge can open it. *)
Theorem boot_close_arms_debounce :
  forall (lvl : Level) (comp : bool) (evs : list Debounce.Event),
    let pre := Debounce.emit CompSetOn
                 (Debounce.closeWaterValve
                    (Debounce.emit (PinMode Debounce.valvePin OUTPUT)
                       (Debounce.emit NoInterrupts (Debounce.boot lvl)))) in
    let s := Debounce.setup comp (Debounce.boot lvl) in
    Debounce.valveOpen (Debounce.boot lvl) = true /\
    s = Debounce.emit Interrupts
          (Debounce.enableMoistureLevelInterrupts comp pre) /\
    Debounce.debounceTimer pre = Debounce.DEBOUNCE_DELAY_TIME /\
    Debounce.DEBOUNCE_DELAY_TIME = 7 /\
    Debounce.valveOpen s = false /\
    Debounce.debounceTimer s = Debounce.DEBOUNCE_DELAY_TIME /\
    (Debounce.wakes evs < Debounce.DEBOUNCE_DELAY_TIME ->
       Debounce.valveOpen (Debounce.run evs s) = false /\
       Debounce.pin13 (Debounce.run evs s) = LOW /\
       Debounce.writes (Debounce.run evs s) = [LOW]) /\
    Debounce.valveOpen
      (Debounce.run (repeat Debounce.Wake 7
                       ++ [Debounce.Comparator RISING;
                           Debounce.Comparator FALLING]) s)
    = true.
Proof.
  intros lvl comp evs pre s.
  destruct (setup_probe_state comp lvl) as (Heq & _ & Htpre & _).
  destruct (setup_fields comp lvl) as (Hv & Ht & Hp & Hw & _).
  fold pre in Heq, Htpre. fold s in Heq, Hv, Ht, Hp, Hw.
  split; [reflexivity|].
  split; [exact Heq|].
  split; [exact Htpre|].
  split; [reflexivity|].
  split; [exact Hv|].
  split; [exact Ht|].
  split.
  - intros Hlt.
    destruct (run_stays_closed evs s Hv) as (Hv' & Hp' & Hw').
    + rewrite Ht. reflexivity.
    + rewrite Ht. exact Hlt.
    + repeat split; congruence.
  - subst s. destruct comp, lvl; reflexivity.
Qed.

Lemma boot_close_arms_debounce_witness :
  let s := Debounce.setup false (Debounce.boot LOW) in
  let evs := [Debounce.Comparator RISING; Debounce.Wake;
              Debounce.Comparator FALLING; Debounce.Wake;
              Debounce.Wake; Debounce.Comparator FALLING] in
  Debounce.valveOpen (Debounce.run evs s) = false /\
  Debounce.writes (Debounce.run evs s) = [LOW].
Proof.
  intros s evs.
  destruct (boot_close_arms_debounce LOW false evs)
    as (_ & _ & _ & _ & _ & _ & Hstay & _).
  assert (Hlt : Debounce.wakes evs < Debounce.DEBOUNCE_DELAY_TIME)
    by (vm_compute; reflexivity).
  destruct (Hstay Hlt) as (Hv & _ & Hw).
  split; [exact Hv | exact Hw].
Defined.

(** ** Hardware writes and valve transitions *)

Section DebounceWrites.
Import Debounce.

(** A call either changes nothing the valve can see, or flips [valveOpen]
    and issues the one write that matches the new value. *)
Lemma call_writes_on_transition (c : Call) (s : State) :
  let s' := call c s in
  (valveOpen s' = valveOpen s /\ pin13 s' = pin13 s /\ writes s' = writes s)
  \/
  (valveOpen s' = negb (valveOpen s) /\
   pin13 s' = levelOf (valveOpen s') /\
   writes s' = levelOf (valveOpen s') :: writes s).
Proof.
  destruct c; cbn [call].
  - destruct (openWaterValve_cases s) as [(Hv & _ & ->)|(_ & ->)].
    + right. cbn. rewrite Hv. repeat split.
    + left. repeat split.
  - destruct (closeWaterValve_cases s) as [(Hv & ->)|(_ & ->)].
    + right. cbn. rewrite Hv. repeat split.
    + left. repeat split.
  - left. destruct (loop_fields s) as (Hv & Hp & _ & Hw & _).
    repeat split; assumption.
Qed.

Lemma writes_count_transitions (cs : list Call) :
  forall s : State,
    length (writes (calls cs s))
    = (length (writes s) + transitions cs s)%nat.
Proof.
  induction cs as [|c cs IH]; intros s.
  - cbn. lia.
  - change (calls (c :: cs) s) with (calls cs (call c s)).
    rewrite IH. cbn [transitions].
    destruct (call_writes_on_transition c s) as [(Hv & _ & Hw)|(Hv & _ & Hw)].
    + rewrite Hv, Hw, Bool.eqb_reflx. lia.
    + rewrite Hv, Hw. cbn [length].
      destruct (valveOpen s); cbn [negb Bool.eqb]; lia.
Qed.

(** The pin follows the flag once it has been written for it. *)
Lemma calls_keep_mirror (cs : list Call) :
  forall s : State,
    pin13 s = levelOf (valveOpen s) ->
    pin13 (calls cs s) = levelOf (valveOpen (calls cs s)).
Proof.
  induction cs as [|c cs IH]; intros s Hm.
  - exact Hm.
  - change (calls (c :: cs) s) with (calls cs (call c s)).
    apply IH.
    destruct (call_writes_on_transition c s) as [(Hv & Hp & _)|(_ & Hp & _)].
    + rewrite Hp, Hv. exact Hm.
    + exact Hp.
Qed.

End DebounceWrites.

Lemma stateless_writes_every_call (cs : list Stateless.Call) :
  forall s : Stateless.State,
    length (Stateless.writes (Stateless.calls cs s))
    = (length (Stateless.writes s) + length cs)%nat.
Proof.
  induction cs as [|c cs IH]; intros s.
  - cbn. lia.
  - change (Stateless.calls (c :: cs) s)
      with (Stateless.calls cs (Stateless.call c s)).
    rewrite IH. destruct c; cbn; unfold Stateless.writes; lia.
Qed.

(** C3, counterexample: in the sketch without valve state, two successive
    calls of [openWaterValve] issue two HIGH writes, the second one on a pin
    that is HIGH already. *)
Lemma stateless_open_twice_writes_twice :
  let s := Stateless.setup (Stateless.boot LOW) in
  let t := Stateless.calls [Stateless.Open; Stateless.Open] s in
  Stateless.writes t = HIGH :: HIGH :: Stateless.writes s /\
  Stateless.pin13 (Stateless.call Stateless.Open s) = HIGH /\
  length (Stateless.writes t) <> (length (Stateless.writes s) + 1)%nat.
Proof. cbn. repeat split. discriminate. Qed.

(** C3, as the sketches have it.  In the debounce sketch every call of a
    valve routine either leaves flag, pin and writes alone or flips
    [valveOpen] and issues the single matching write, so along any sequence
    of calls the writes are as many as the flips and the pin keeps mirroring
    the flag; two successive [openWaterValve] calls issue at most one write,
    and exactly one HIGH when the valve was Closed with the timer at zero.
    In the sketch without valve state every call writes. *)
Theorem valve_writes_on_transitions :
  (forall (c : Debounce.Call) (s : Debounce.State),
     let s' := Debounce.call c s in
     (Debounce.valveOpen s' = Debounce.valveOpen s /\
      Debounce.writes s' = Debounce.writes s)
     \/
     (Debounce.valveOpen s' = negb (Debounce.valveOpen s) /\
      Debounce.writes s'
      = levelOf (Debounce.valveOpen s') :: Debounce.writes s)) /\
  (forall (cs : list Debounce.Call) (s : Debounce.State),
     length (Debounce.writes (Debounce.calls cs s))
     = (length (Debounce.writes s) + Debounce.transitions cs s)%nat) /\
  (forall (cs : list Debounce.Call) (s : Debounce.State),
     Debounce.pin13 s = levelOf (Debounce.valveOpen s) ->
     Debounce.pin13 (Debounce.calls cs s)
     = levelOf (Debounce.valveOpen (Debounce.calls cs s))) /\
  (forall s : Debounce.State,
     let t := Debounce.calls [Debounce.Open; Debounce.Open] s in
     (length (Debounce.writes t) <= length (Debounce.writes s) + 1)%nat /\
     (Debounce.valveOpen s = false -> Debounce.debounceTimer s = 0 ->
        Debounce.writes t = HIGH :: Debounce.writes s)) /\
  (forall (cs : list Stateless.Call) (s : Stateless.State),
     length (Stateless.writes (Stateless.calls cs s))
     = (length (Stateless.writes s) + length cs)%nat).
Proof.
  split; [|split; [|split; [|split]]].
  - intros c s s'.
    destruct (call_writes_on_transition c s) as [(Hv & _ & Hw)|(Hv & _ & Hw)];
      [left | right]; split; assumption.
  - intros cs s. apply writes_count_transitions.
  - intros cs s. apply calls_keep_mirror.
  - intros s t. split.
    + subst t. rewrite writes_count_transitions. cbn [Debounce.transitions].
      destruct (openWaterValve_cases s) as [(Hv & _ & Heq)|(_ & Heq)].
      * cbn [Debounce.call]. rewrite Heq. cbn. rewrite Hv. cbn. lia.
      * cbn [Debounce.call]. rewrite !Heq, Bool.eqb_reflx. lia.
    + intros Hv Hz. subst t. cbn. unfold Debounce.openWaterValve.
      rewrite Hv, Hz. reflexivity.
  - intros cs s. apply stateless_writes_every_call.
Qed.

Lemma valve_writes_on_transitions_witness :
  let s := Debounce.setup true (Debounce.boot HIGH) in
  let cs := [Debounce.Close; Debounce.Tick; Debounce.Open] in
  Debounce.pin13 (Debounce.calls cs s)
  = levelOf (Debounce.valveOpen (Debounce.calls cs s)) /\
  Debounce.writes
    (Debounce.calls [Debounce.Open; Debounce.Open]
       (Debounce.mkState false 0 LOW None []))
  = [HIGH].
Proof.
  intros s cs.
  destruct valve_writes_on_transitions as (_ & _ & Hmirror & Htwice & _).
  split.
  - apply Hmirror. reflexivity.
  - apply (Htwice (Debounce.mkState false 0 LOW None [])); reflexivity.
Defined.

(** ** Edge handling in the two comparator sketches *)

Section DebounceEdges.
Import Debounce.

Lemma openWaterValve_armed (s : State) :
  armed (openWaterValve s) = armed s.
Proof.
  destruct (openWaterValve_cases s) as [(_ & _ & ->)|(_ & ->)]; reflexivity.
Qed.

Lemma debounce_falling_handled (s : State) :
  armed s = Some (moistureLevelLowInterrupt_isr, FALLING) ->
  comparatorEdge FALLING s
  = openWaterValve (enableInterrupt moistureLevelHighInterrupt_isr RISING s).
Proof. intros Ha. unfold comparatorEdge. rewrite Ha. reflexivity. Qed.

Lemma debounce_rising_handled (s : State) :
  armed s = Some (moistureLevelHighInterrupt_isr, RISING) ->
  comparatorEdge RISING s
  = enableInterrupt moistureLevelLowInterrupt_isr FALLING (closeWaterValve s).
Proof. intros Ha. unfold comparatorEdge. rewrite Ha. reflexivity. Qed.

Lemma debounce_steady_step (s : State) (e : Edge) :
  steady s ->
  armedEdge s = Some e ->
  steady (comparatorEdge e s) /\
  armedEdge (comparatorEdge e s) = Some (opposite e) /\
  comparatorEdge (opposite e) s = s.
Proof.
  unfold steady, armedEdge.
  intros [Ha|Ha] He; rewrite Ha in He; cbn in He;
    injection He as <-; cbn [opposite].
  - rewrite (debounce_falling_handled s Ha).
    rewrite openWaterValve_armed. cbn.
    split; [right; reflexivity|]. split; [reflexivity|].
    unfold comparatorEdge. rewrite Ha. reflexivity.
  - rewrite (debounce_rising_handled s Ha). cbn.
    split; [left; reflexivity|]. split; [reflexivity|].
    unfold comparatorEdge. rewrite Ha. reflexivity.
Qed.

Lemma debounce_setup_steady (comp : bool) (lvl : Level) :
  steady (setup comp (boot lvl)).
Proof.
  destruct (setup_fields comp lvl) as (_ & _ & _ & _ & Ha & _).
  unfold steady. rewrite Ha. destruct comp; [left | right]; reflexivity.
Qed.

End DebounceEdges.

Section StatelessEdges.
Import Stateless.

Lemma stateless_falling_handled (s : State) :
  armed s = Some (moistureHighInterrupt_isr, FALLING) ->
  comparatorEdge FALLING s
  = enableInterrupt moistureLowInterrupt_isr RISING (closeWaterValve s).
Proof. intros Ha. unfold comparatorEdge. rewrite Ha. reflexivity. Qed.

Lemma stateless_rising_handled (s : State) :
  armed s = Some (moistureLowInterrupt_isr, RISING) ->
  comparatorEdge RISING s
  = enableInterrupt moistureHighInterrupt_isr FALLING (openWaterValve s).
Proof. intros Ha. unfold comparatorEdge. rewrite Ha. reflexivity. Qed.

Lemma stateless_steady_step (s : State) (e : Edge) :
  steady s ->
  armedEdge s = Some e ->
  steady (comparatorEdge e s) /\
  armedEdge (comparatorEdge e s) = Some (opposite e) /\
  comparatorEdge (opposite e) s = s.
Proof.
  unfold steady, armedEdge.
  intros [Ha|Ha] He; rewrite Ha in He; cbn in He;
    injection He as <-; cbn [opposite].
  - rewrite (stateless_rising_handled s Ha). cbn.
    split; [right; reflexivity|]. split; [reflexivity|].
    unfold comparatorEdge. rewrite Ha. reflexivity.
  - rewrite (stateless_falling_handled s Ha). cbn.
    split; [left; reflexivity|]. split; [reflexivity|].
    unfold comparatorEdge. rewrite Ha. reflexivity.
Qed.

End StatelessEdges.

(** C5, counterexample: in the debounce sketch, once the timer has run out,
    the FALLING edge is handled by opening the valve (a HIGH write), which
    closing and arming RISING would not do. *)
Lemma debounce_falling_edge_opens_valve :
  let s := Debounce.run (repeat Debounce.Wake 7)
             (Debounce.setup true (Debounce.boot LOW)) in
  let s' := Debounce.comparatorEdge FALLING s in
  Debounce.armedEdge s = Some FALLING /\
  Debounce.valveOpen s' = true /\
  Debounce.writes s' = HIGH :: Debounce.writes s /\
  Debounce.armedEdge s' = Some RISING /\
  forall h : Debounce.Handler,
    s' <> Debounce.enableInterrupt h RISING (Debounce.closeWaterValve s).
Proof.
  intros s s'.
  assert (Hv : Debounce.valveOpen s' = true) by (vm_compute; reflexivity).
  split; [vm_compute; reflexivity|].
  split; [exact Hv|].
  split; [vm_compute; reflexivity|].
  split; [vm_compute; reflexivity|].
  assert (Hc : forall (t : Debounce.State) (h : Debounce.Handler),
             Debounce.valveOpen
               (Debounce.enableInterrupt h RISING (Debounce.closeWaterValve t))
             = false)
    by (intros t h; apply closeWaterValve_closed).
  intros h Heq. rewrite Heq, Hc in Hv. discriminate Hv.
Qed.

(** C5, as the sketches have it.  Every handled comparator edge runs one
    valve routine and registers the other routine for the opposite edge; the
    pairing of edge and routine differs between the sketches.  Sketch
    without valve state, after its first handled edge: FALLING closes and
    then arms RISING, RISING opens and then arms FALLING.  Debounce sketch,
    from [setup] on: FALLING arms RISING and then calls [openWaterValve],
    RISING calls [closeWaterValve] and then arms FALLING.  In both, after a
    handled edge exactly the opposite direction is armed, and an edge in the
    direction that is not armed changes nothing. *)
Theorem edge_handlers_rearm_opposite :
  (forall s : Stateless.State,
     Stateless.armed s = Some (Stateless.moistureHighInterrupt_isr, FALLING) ->
     Stateless.comparatorEdge FALLING s
     = Stateless.enableInterrupt Stateless.moistureLowInterrupt_isr RISING
         (Stateless.closeWaterValve s)) /\
  (forall s : Stateless.State,
     Stateless.armed s = Some (Stateless.moistureLowInterrupt_isr, RISING) ->
     Stateless.comparatorEdge RISING s
     = Stateless.enableInterrupt Stateless.moistureHighInterrupt_isr FALLING
         (Stateless.openWaterValve s)) /\
  (forall s : Debounce.State,
     Debounce.armed s = Some (Debounce.moistureLevelLowInterrupt_isr, FALLING) ->
     Debounce.comparatorEdge FALLING s
     = Debounce.openWaterValve
         (Debounce.enableInterrupt Debounce.moistureLevelHighInterrupt_isr
            RISING s)) /\
  (forall s : Debounce.State,
     Debounce.armed s = Some (Debounce.moistureLevelHighInterrupt_isr, RISING) ->
     Debounce.comparatorEdge RISING s
     = Debounce.enableInterrupt Debounce.moistureLevelLowInterrupt_isr FALLING
         (Debounce.closeWaterValve s)) /\
  (forall (s : Stateless.State) (e : Edge),
     Stateless.steady s -> Stateless.armedEdge s = Some e ->
     Stateless.steady (Stateless.comparatorEdge e s) /\
     Stateless.armedEdge (Stateless.comparatorEdge e s) = Some (opposite e) /\
     Stateless.comparatorEdge (opposite e) s = s) /\
  (forall (s : Debounce.State) (e : Edge),
     Debounce.steady s -> Debounce.armedEdge s = Some e ->
     Debounce.steady (Debounce.comparatorEdge e s) /\
     Debounce.armedEdge (Debounce.comparatorEdge e s) = Some (opposite e) /\
     Debounce.comparatorEdge (opposite e) s = s) /\
  (forall lvl : Level,
     Stateless.steady
       (Stateless.comparatorEdge FALLING (Stateless.setup (Stateless.boot lvl)))) /\
  (forall (lvl : Level) (comp : bool),
     Debounce.steady (Debounce.setup comp (Debounce.boot lvl))) /\
  (forall s : Debounce.State,
     Debounce.steady s -> Debounce.steady (Debounce.loop s)).
Proof.
  split; [exact stateless_falling_handled|].
  split; [exact stateless_rising_handled|].
  split; [exact debounce_falling_handled|].
  split; [exact debounce_rising_handled|].
  split; [exact stateless_steady_step|].
  split; [exact debounce_steady_step|].
  split; [intros lvl; right; reflexivity|].
  split; [intros lvl comp; apply debounce_setup_steady|].
  intros s Hs. unfold Debounce.steady in *.
  destruct (loop_fields s) as (_ & _ & Ha & _). rewrite Ha. exact Hs.
Qed.

Lemma edge_handlers_rearm_opposite_witness :
  let wet := Debounce.setup true (Debounce.boot LOW) in
  let on := Stateless.comparatorEdge FALLING
              (Stateless.setup (Stateless.boot LOW)) in
  Debounce.armedEdge (Debounce.comparatorEdge FALLING wet) = Some RISING /\
  Stateless.pin13 (Stateless.comparatorEdge FALLING on) = LOW /\
  Stateless.armedEdge (Stateless.comparatorEdge FALLING on) = Some RISING.
Proof.
  intros wet on.
  destruct edge_handlers_rearm_opposite
    as (Hsf & _ & _ & _ & Hss & Hds & Hon & Hwet & _).
  split; [|split].
  - apply (Hds wet FALLING); [apply Hwet | reflexivity].
  - rewrite (Hsf on); reflexivity.
  - apply (Hss on FALLING); [apply Hon | reflexivity].
Defined.

(** ** Order of the hardware accesses made by [setup] *)

Lemma sample_setMoistureThreshold_log (pot : Z) (s : Sample.State) :
  Sample.log (Sample.setMoistureThreshold pot s)
  = AnalogRead Sample.potPin :: Sample.log s.
Proof.
  unfold Sample.setMoistureThreshold.
  cbn -[Sample.inflate Arduino.map Z.leb].
  destruct (Sample.inflate _ <=? _); reflexivity.
Qed.

Lemma sample_checkMoisture_log (r : Z) (s : Sample.State) :
  exists l : list (Action Sample.Handler),
    Sample.log (Sample.checkMoisture r s) = l ++ Sample.log s.
Proof.
  unfold Sample.checkMoisture. cbn -[Arduino.map Z.ltb Z.leb].
  destruct (negb (Sample.valveOpen s) && _).
  - exists [DigitalWrite Sample.valvePin HIGH;
            AnalogRead Sample.moistureSensorPin]. reflexivity.
  - destruct (Sample.valveOpen s && _).
    + exists [DigitalWrite Sample.valvePin LOW;
              AnalogRead Sample.moistureSensorPin]. reflexivity.
    + exists [AnalogRead Sample.moistureSensorPin]. reflexivity.
Qed.

(** C8, counterexample: in the sample-triggered sketch the potentiometer
    interrupt is attached before the valve pin is written LOW. *)
Lemma sample_setup_arms_before_closing :
  let trace := rev (Sample.log (Sample.setup 300 250 (Sample.boot HIGH))) in
  closedBefore Sample.valvePin (fun a => isSensing a || isArming a) trace
  = false /\
  firstn 5 trace
  = [NoInterrupts;
     PinMode Sample.potPin INPUT;
     AttachInterrupt Sample.potPin Sample.setMoistureThreshold_isr CHANGE;
     PinMode Sample.valvePin OUTPUT;
     DigitalWrite Sample.valvePin LOW].
Proof. vm_compute. split; reflexivity. Qed.

(** C8, as the sketches have it.  In each sketch [setup] writes the valve pin
    LOW, whatever its level at reset, before it reads any sensor or
    comparator, before any HIGH write, and before it registers the routine
    that evaluates moisture.  In the two comparator sketches no interrupt at
    all is registered before that write, and [setup] ends with the pin LOW;
    in the sample-triggered sketch only the potentiometer interrupt is, and
    the threshold and moisture evaluations start from a LOW pin with the
    valve flag false. *)
Theorem setup_closes_valve_first :
  (forall (lvl : Level) (comp : bool),
     let s := Debounce.setup comp (Debounce.boot lvl) in
     closedBefore Debounce.valvePin (fun a => isSensing a || isArming a)
       (rev (Debounce.log s)) = true /\
     Debounce.pin13 s = LOW) /\
  (forall lvl : Level,
     let s := Stateless.setup (Stateless.boot lvl) in
     closedBefore Stateless.valvePin (fun a => isSensing a || isArming a)
       (rev (Stateless.log s)) = true /\
     Stateless.pin13 s = LOW) /\
  (forall (lvl : Level) (pot r : Z),
     let pre :=
       Sample.emit
         (AttachInterrupt Sample.moistureSensorPin Sample.checkMoisture_isr CHANGE)
         (Sample.emit (PinMode Sample.moistureSensorPin INPUT)
            (Sample.digitalWrite LOW
               (Sample.emit (PinMode Sample.valvePin OUTPUT)
                  (Sample.emit
                     (AttachInterrupt Sample.potPin
                        Sample.setMoistureThreshold_isr CHANGE)
                     (Sample.emit (PinMode Sample.potPin INPUT)
                        (Sample.emit NoInterrupts (Sample.boot lvl))))))) in
     let s := Sample.setup pot r (Sample.boot lvl) in
     closedBefore Sample.valvePin
       (fun a => isSensing a || Sample.armsEvaluator a)
       (rev (Sample.log s)) = true /\
     s = Sample.emit Interrupts
           (Sample.checkMoisture r (Sample.setMoistureThreshold pot pre)) /\
     Sample.pin13 pre = LOW /\
     Sample.valveOpen pre = false).
Proof.
  split; [|split].
  - intros lvl comp s. subst s. destruct comp, lvl; split; reflexivity.
  - intros lvl s. subst s. destruct lvl; split; reflexivity.
  - intros lvl pot r pre s.
    assert (Heq : s = Sample.emit Interrupts
                        (Sample.checkMoisture r
                           (Sample.setMoistureThreshold pot pre)))
      by reflexivity.
    split; [|split; [exact Heq | split; reflexivity]].
    rewrite Heq. cbn [Sample.emit Sample.log].
    destruct (sample_checkMoisture_log r (Sample.setMoistureThreshold pot pre))
      as (l & ->).
    rewrite sample_setMoistureThreshold_log.
    cbn [rev]. rewrite rev_app_distr. cbn [rev].
    subst pre. cbn [Sample.emit Sample.digitalWrite Sample.log Sample.boot rev app].
    reflexivity.
Qed.

(** * Further properties of the sketches *)

Lemma alternating_push (a : Level) (l : list Level) :
  alternating l = true ->
  hd_error l <> Some a ->
  alternating (a :: l) = true.
Proof.
  destruct l as [|b l']; intros Halt Hne.
  - reflexivity.
  - change (alternating (a :: b :: l'))
      with (negb (Level_eqb a b) && alternating (b :: l')).
    rewrite Halt.
    destruct a, b; cbn; try reflexivity; exfalso; apply Hne; reflexivity.
Qed.

(** ** The sample-triggered sketch between events *)

Section SampleRuns.
Import Sample.

Lemma inflate_is_sum (pot : Z) :
  0 <= pot <= 1023 -> inflate pot = pot + pot / 100.
Proof.
  intros Hr. rewrite (inflate_is_floor pot Hr).
  replace (pot * 101) with (pot * 100 + pot) by lia.
  rewrite Z.div_add_l by lia. reflexivity.
Qed.

Lemma highWater_after_update (pot : Z) (s : State) :
  0 <= pot <= 1023 ->
  highWater (setMoistureThreshold pot s) = pot + Z.max 1 (pot / 100).
Proof.
  intros Hr.
  destruct (setMoistureThreshold_fields pot s) as (_ & Hhi & _).
  rewrite Hhi, (inflate_is_sum pot Hr).
  pose proof (Z.div_pos pot 100 ltac:(lia) ltac:(lia)) as Hq.
  destruct (Z.leb_spec (pot + pot / 100) pot); lia.
Qed.


Lemma sample_update_consistent (pot : Z) (s : State) :
  consistent s -> consistent (setMoistureThreshold pot s).
Proof.
  intros (Hm & Hh & Halt & _).
  destruct (setMoistureThreshold_fields pot s) as (Hlo & Hhi & Hv & Hp & Hw).
  unfold consistent. rewrite Hlo, Hhi, Hv, Hp, Hw.
  split; [exact Hm|]. split; [exact Hh|]. split; [exact Halt|].
  destruct (Z.leb_spec (inflate pot) pot); lia.
Qed.






Lemma sample_setup_shape (pot r : Z) (lvl : Level) :
  let pre :=
    emit (AttachInterrupt moistureSensorPin checkMoisture_isr CHANGE)
      (emit (PinMode moistureSensorPin INPUT)
         (digitalWrite LOW
            (emit (PinMode valvePin OUTPUT)
               (emit (AttachInterrupt potPin setMoistureThreshold_isr CHANGE)
                  (emit (PinMode potPin INPUT)
                     (emit NoInterrupts (boot lvl))))))) in
  setup pot r (boot lvl)
  = emit Interrupts (checkMoisture r (setMoistureThreshold pot pre)) /\
  consistent pre /\
  valveOpen pre = false /\
  writes pre = [LOW].
Proof.
  cbn zeta. split; [reflexivity|].
  split; [|split; reflexivity].
  unfold consistent. cbn.
  split; [reflexivity|]. split; [reflexivity|]. split; [reflexivity|].
  reflexivity.
Qed.


End SampleRuns.



(** X2. Turning the potentiometer up never lowers a threshold: for readings
    [p <= q] in 0..1023, both [lowWater] and [highWater] stored for [p] are
    at most those stored for [q], whatever the states they are stored in. *)
Theorem setMoistureThreshold_monotone :
  forall (s t : Sample.State) (p q : Z),
    0 <= p -> p <= q -> q <= 1023 ->
    Sample.lowWater (Sample.setMoistureThreshold p s)
    <= Sample.lowWater (Sample.setMoistureThreshold q t) /\
    Sample.highWater (Sample.setMoistureThreshold p s)
    <= Sample.highWater (Sample.setMoistureThreshold q t).
Proof.
  intros s t p q Hp Hpq Hq.
  destruct (setMoistureThreshold_fields p s) as (Hlp & _).
  destruct (setMoistureThreshold_fields q t) as (Hlq & _).
  rewrite Hlp, Hlq.
  rewrite (highWater_after_update p s), (highWater_after_update q t) by lia.
  pose proof (Z.div_le_mono p q 100 ltac:(lia) Hpq) as Hdiv.
  lia.
Qed.

Lemma setMoistureThreshold_monotone_witness :
  Sample.highWater (Sample.setMoistureThreshold 99 (Sample.boot LOW))
  <= Sample.highWater (Sample.setMoistureThreshold 100 (Sample.boot HIGH)).
Proof.
  apply (setMoistureThreshold_monotone
           (Sample.boot LOW) (Sample.boot HIGH) 99 100); lia.
Defined.

(** X3. What [setup] of the sample-triggered sketch leaves behind.  With the
    potentiometer at [pot] and the moisture reading [r], both in 0..1023 and
    for either level of the pin at reset: the thresholds are those of [pot],
    and the valve is Open exactly when [r < pot]; the pin carries that state,
    written LOW first and then, when dry, HIGH. *)
Theorem sample_setup_outcome :
  forall (lvl : Level) (pot r : Z),
    0 <= pot <= 1023 ->
    0 <= r <= 1023 ->
    let s := Sample.setup pot r (Sample.boot lvl) in
    Sample.lowWater s = pot /\
    Sample.highWater s = pot + Z.max 1 (pot / 100) /\
    Sample.valveOpen s = (r <? pot) /\
    Sample.pin13 s = levelOf (r <? pot) /\
    Sample.writes s = (if r <? pot then [HIGH; LOW] else [LOW]).
Proof.
  intros lvl pot r Hpot _ s. subst s.
  destruct (sample_setup_shape pot r lvl) as (-> & _ & Hv0 & Hw0).
  match type of Hw0 with Sample.writes ?x = _ => set (pre := x) in * end.
  destruct (setMoistureThreshold_fields pot pre) as (Hlo & _ & Hv & _ & Hw).
  pose proof (highWater_after_update pot pre Hpot) as Hhi.
  set (s1 := Sample.setMoistureThreshold pot pre) in *.
  destruct (checkMoisture_cases r s1) as (Hlo' & Hhi' & Hcase).
  set (s2 := Sample.checkMoisture r s1) in *.
  change (Sample.lowWater (Sample.emit Interrupts s2))
    with (Sample.lowWater s2).
  change (Sample.highWater (Sample.emit Interrupts s2))
    with (Sample.highWater s2).
  change (Sample.valveOpen (Sample.emit Interrupts s2))
    with (Sample.valveOpen s2).
  change (Sample.pin13 (Sample.emit Interrupts s2)) with (Sample.pin13 s2).
  change (Sample.writes (Sample.emit Interrupts s2)) with (Sample.writes s2).
  rewrite Hlo', Hhi', Hlo, Hhi.
  split; [reflexivity|]. split; [reflexivity|].
  destruct Hcase as [(_ & Hdry & Hv' & Hp' & Hw')
                    |[(Hopen & _)|(Hno & _ & Hv' & Hp' & Hw')]].
  - rewrite Hlo in Hdry.
    destruct (Z.ltb_spec r pot) as [_|Hge]; [|lia].
    rewrite Hv', Hp', Hw', Hw, Hw0. repeat split.
  - rewrite Hv, Hv0 in Hopen. discriminate Hopen.
  - rewrite Hv, Hv0, Hlo in Hno.
    destruct Hno as [Habs|Hge]; [discriminate Habs|].
    destruct (Z.ltb_spec r pot) as [Hlt|_]; [lia|].
    rewrite Hv', Hp', Hw', Hv, Hv0, Hw, Hw0.
    split; [reflexivity|]. split; [|reflexivity].
    destruct (sample_update_consistent pot pre) as (Hm & _).
    { destruct (sample_setup_shape pot r lvl) as (_ & Hc & _). exact Hc. }
    fold s1 in Hm. rewrite Hm, Hv, Hv0. reflexivity.
Qed.

Lemma sample_setup_outcome_witness :
  Sample.valveOpen (Sample.setup 300 250 (Sample.boot HIGH)) = true /\
  Sample.writes (Sample.setup 300 310 (Sample.boot HIGH)) = [LOW].
Proof.
  assert (H300 : 0 <= 300 <= 1023) by lia.
  assert (H250 : 0 <= 250 <= 1023) by lia.
  assert (H310 : 0 <= 310 <= 1023) by lia.
  destruct (sample_setup_outcome HIGH 300 250 H300 H250)
    as (_ & _ & Hv & _).
  destruct (sample_setup_outcome HIGH 300 310 H300 H310)
    as (_ & _ & _ & _ & Hw).
  split; [exact Hv | exact Hw].
Defined.


(** X5. A threshold change takes effect at the next moisture evaluation and
    not before.  [setMoistureThreshold] alone leaves valve flag, pin and
    writes untouched; the evaluation that follows decides with the new pair
    only, whatever thresholds were stored before: a Closed valve opens
    exactly when [r < p], an Open one stays Open exactly when
    [r < p + max 1 (p / 100)]. *)
Theorem threshold_change_then_evaluation :
  forall (s : Sample.State) (p r : Z),
    0 <= p <= 1023 ->
    let s1 := Sample.setMoistureThreshold p s in
    let s2 := Sample.checkMoisture r s1 in
    Sample.valveOpen s1 = Sample.valveOpen s /\
    Sample.pin13 s1 = Sample.pin13 s /\
    Sample.writes s1 = Sample.writes s /\
    Sample.valveOpen s2
    = (if Sample.valveOpen s then r <? p + Z.max 1 (p / 100) else r <? p).
Proof.
  intros s p r Hp s1 s2.
  destruct (setMoistureThreshold_fields p s) as (Hlo & _ & Hv & Hpin & Hw).
  pose proof (highWater_after_update p s Hp) as Hhi.
  fold s1 in Hlo, Hv, Hpin, Hw, Hhi.
  split; [exact Hv|]. split; [exact Hpin|]. split; [exact Hw|].
  destruct (checkMoisture_cases r s1) as (_ & _ & Hcase).
  fold s2 in Hcase. rewrite Hlo, Hhi, Hv in Hcase.
  destruct Hcase as [(Hc & Hdry & Hv' & _)
                    |[(Ho & Hwet & Hv' & _)|(Hno & Hnc & Hv' & _)]];
    rewrite Hv'.
  - rewrite Hc. symmetry. apply Z.ltb_lt. exact Hdry.
  - rewrite Ho. symmetry. apply Z.ltb_ge. exact Hwet.
  - destruct (Sample.valveOpen s).
    + destruct Hnc as [Habs|Hlt]; [discriminate Habs|].
      symmetry. apply Z.ltb_lt. exact Hlt.
    + destruct Hno as [Habs|Hge]; [discriminate Habs|].
      symmetry. apply Z.ltb_ge. exact Hge.
Qed.

Lemma threshold_change_then_evaluation_witness :
  Sample.valveOpen
    (Sample.checkMoisture 400
       (Sample.setMoistureThreshold 500
          (Sample.mkState 300 303 false LOW [])))
  = true.
Proof.
  assert (Hp : 0 <= 500 <= 1023) by lia.
  destruct (threshold_change_then_evaluation
              (Sample.mkState 300 303 false LOW []) 500 400 Hp)
    as (_ & _ & _ & Hv).
  exact Hv.
Defined.

(** X6. Hysteresis holds the valve.  Over any run of moisture evaluations,
    an Open valve stays Open, with no write, as long as every sample is
    below [highWater], and a Closed valve stays Closed, with no write, as
    long as every sample is at least [lowWater]. *)
Theorem hysteresis_holds_valve :
  forall (rs : list Z) (s : Sample.State),
    let s' := Sample.run (List.map Sample.MoistureChange rs) s in
    (Sample.valveOpen s = true ->
     Forall (fun r => r < Sample.highWater s) rs ->
       Sample.valveOpen s' = true /\ Sample.writes s' = Sample.writes s) /\
    (Sample.valveOpen s = false ->
     Forall (fun r => Sample.lowWater s <= r) rs ->
       Sample.valveOpen s' = false /\ Sample.writes s' = Sample.writes s).
Proof.
  induction rs as [|r rs IH]; intros s s'.
  - split; intros Hv _; split; try exact Hv; reflexivity.
  - subst s'.
    change (Sample.run (List.map Sample.MoistureChange (r :: rs)) s)
      with (Sample.run (List.map Sample.MoistureChange rs)
              (Sample.checkMoisture r s)).
    destruct (checkMoisture_cases r s) as (Hlo & Hhi & Hcase).
    destruct (IH (Sample.checkMoisture r s)) as (IHo & IHc).
    rewrite Hlo, Hhi in *.
    split; intros Hv Hall; inversion Hall as [|? ? Hr Hrest]; subst.
    + destruct Hcase as [(Hc & _)|[(_ & Hwet & _)|(_ & _ & Hv' & _ & Hw')]];
        [congruence | lia | ].
      rewrite Hv in Hv'. destruct (IHo Hv' Hrest) as (H1 & H2).
      split; [exact H1 | congruence].
    + destruct Hcase as [(_ & Hdry & _)|[(Ho & _)|(_ & _ & Hv' & _ & Hw')]];
        [lia | congruence | ].
      rewrite Hv in Hv'. destruct (IHc Hv' Hrest) as (H1 & H2).
      split; [exact H1 | congruence].
Qed.

Lemma hysteresis_holds_valve_witness :
  Sample.valveOpen
    (Sample.run (List.map Sample.MoistureChange [300; 302; 250; 301])
       (Sample.mkState 300 303 true HIGH []))
  = true.
Proof.
  destruct (hysteresis_holds_valve [300; 302; 250; 301]
              (Sample.mkState 300 303 true HIGH []))
    as (Hopen & _).
  apply Hopen; [reflexivity|].
  repeat constructor.
Defined.

(** ** The debounce sketch between events *)

Section DebounceRuns.
Import Debounce.

Lemma debounce_open_after_arm_consistent (s : State) :
  consistent s ->
  consistent
    (openWaterValve (enableInterrupt moistureLevelHighInterrupt_isr RISING s)).
Proof.
  destruct s as [v t p a l].
  unfold consistent, steady, openWaterValve, enableInterrupt, writes.
  cbn -[Z.eqb DEBOUNCE_DELAY_TIME alternating].
  intros (Hm & Hh & Halt & Ht & Hvt & _).
  destruct v; cbn -[Z.eqb DEBOUNCE_DELAY_TIME alternating].
  - split; [exact Hm|]. split; [exact Hh|]. split; [exact Halt|].
    split; [exact Ht|]. split; [exact Hvt|]. right. reflexivity.
  - destruct (Z.eqb_spec t 0) as [Hz|Hnz]; cbn -[DEBOUNCE_DELAY_TIME alternating].
    + split; [reflexivity|]. split; [reflexivity|].
      split; [|split; [exact Ht|split; [intros _; exact Hz|right; reflexivity]]].
      apply alternating_push; [exact Halt|].
      rewrite Hh, Hm. discriminate.
    + split; [exact Hm|]. split; [exact Hh|]. split; [exact Halt|].
      split; [exact Ht|]. split; [exact Hvt|]. right. reflexivity.
Qed.

Lemma debounce_arm_after_close_consistent (s : State) :
  consistent s ->
  consistent
    (enableInterrupt moistureLevelLowInterrupt_isr FALLING (closeWaterValve s)).
Proof.
  destruct s as [v t p a l].
  unfold consistent, steady, closeWaterValve, enableInterrupt, writes.
  cbn -[DEBOUNCE_DELAY_TIME alternating].
  intros (Hm & Hh & Halt & Ht & Hvt & _).
  destruct v; cbn -[DEBOUNCE_DELAY_TIME alternating].
  - split; [reflexivity|]. split; [reflexivity|].
    split; [|split; [|split; [intros Habs; discriminate Habs|left; reflexivity]]].
    + apply alternating_push; [exact Halt|].
      rewrite Hh, Hm. discriminate.
    + rewrite DEBOUNCE_DELAY_TIME_value. lia.
  - split; [exact Hm|]. split; [exact Hh|]. split; [exact Halt|].
    split; [exact Ht|]. split; [exact Hvt|]. left. reflexivity.
Qed.

Lemma debounce_loop_consistent (s : State) :
  consistent s -> consistent (loop s).
Proof.
  intros (Hm & Hh & Halt & Ht & Hvt & Hs).
  destruct (loop_fields s) as (Hv & Hp & Ha & Hw & Htm).
  unfold consistent, steady in *. rewrite Hv, Hp, Ha, Hw.
  split; [exact Hm|]. split; [exact Hh|]. split; [exact Halt|].
  rewrite DEBOUNCE_DELAY_TIME_value in *.
  split; [|split; [|exact Hs]].
  - rewrite Htm. destruct (Z.ltb_spec 0 (debounceTimer s)) as [Hpos|Hz].
    + rewrite Z.mod_small; lia.
    + exact Ht.
  - intros Hopen. rewrite Htm, (Hvt Hopen). reflexivity.
Qed.

Lemma debounce_step_consistent (ev : Event) (s : State) :
  consistent s -> consistent (step ev s).
Proof.
  intros Hc. destruct ev as [|e]; cbn [step].
  - apply debounce_loop_consistent, Hc.
  - pose proof Hc as (_ & _ & _ & _ & _ & [Ha|Ha]);
      unfold comparatorEdge; rewrite Ha;
      destruct e; cbn [triggers Edge_eqb dispatch]; try exact Hc.
    + apply debounce_open_after_arm_consistent, Hc.
    + apply debounce_arm_after_close_consistent, Hc.
Qed.

Lemma debounce_run_consistent (evs : list Event) :
  forall s : State, consistent s -> consistent (run evs s).
Proof.
  induction evs as [|ev evs IH]; intros s Hc.
  - exact Hc.
  - change (run (ev :: evs) s) with (run evs (step ev s)).
    apply IH, debounce_step_consistent, Hc.
Qed.

Lemma debounce_setup_consistent (comp : bool) (lvl : Level) :
  consistent (setup comp (boot lvl)).
Proof.
  destruct (setup_fields comp lvl) as (Hv & Ht & Hp & Hw & _).
  unfold consistent. rewrite Hv, Ht, Hp, Hw.
  split; [reflexivity|]. split; [reflexivity|]. split; [reflexivity|].
  split; [rewrite DEBOUNCE_DELAY_TIME_value; lia|].
  split; [intros Habs; discriminate Habs|].
  apply debounce_setup_steady.
Qed.

(** With the closing routine armed and the valve Closed, nothing but a
    RISING edge changes valve, pin, writes or the armed routine. *)
Lemma debounce_waits_for_rising (evs : list Event) :
  forall s : State,
    valveOpen s = false ->
    armed s = Some (moistureLevelHighInterrupt_isr, RISING) ->
    forallb (fun ev => negb (isRising ev)) evs = true ->
    valveOpen (run evs s) = false /\
    armed (run evs s) = armed s /\
    pin13 (run evs s) = pin13 s /\
    writes (run evs s) = writes s.
Proof.
  induction evs as [|ev evs IH]; intros s Hv Ha Hno.
  - repeat split. exact Hv.
  - change (run (ev :: evs) s) with (run evs (step ev s)).
    cbn [forallb] in Hno. apply andb_prop in Hno. destruct Hno as [Hev Hrest].
    assert (Hstep : valveOpen (step ev s) = false /\
                    armed (step ev s) = armed s /\
                    pin13 (step ev s) = pin13 s /\
                    writes (step ev s) = writes s).
    { destruct ev as [|e]; cbn [step].
      - destruct (loop_fields s) as (Hv' & Hp' & Ha' & Hw' & _).
        repeat split; congruence.
      - unfold comparatorEdge. rewrite Ha.
        destruct e; cbn in Hev; try discriminate Hev;
          cbn [triggers Edge_eqb]; rewrite <- Ha; repeat split; exact Hv. }
    destruct Hstep as (Hv1 & Ha1 & Hp1 & Hw1).
    destruct (IH (step ev s) Hv1) as (Hv2 & Ha2 & Hp2 & Hw2).
    + rewrite Ha1. exact Ha.
    + exact Hrest.
    + repeat split; congruence.
Qed.

Lemma ticks_count_down (n : nat) :
  forall s : State,
    0 <= debounceTimer s < 2 ^ 32 ->
    debounceTimer (calls (repeat Tick n) s)
    = Z.max 0 (debounceTimer s - Z.of_nat n).
Proof.
  induction n as [|n IH]; intros s Hr.
  - cbn [repeat calls fold_left]. cbn [Z.of_nat]. lia.
  - change (calls (repeat Tick (S n)) s) with (calls (repeat Tick n) (loop s)).
    destruct (Z.eq_dec (debounceTimer s) 0) as [Hz|Hnz].
    + destruct (loop_timer_bounds s) as (_ & _ & Hkeep); [lia|].
      rewrite IH; rewrite (Hkeep Hz); lia.
    + pose proof (loop_timer_exact s ltac:(lia)) as Hex.
      rewrite IH; rewrite Hex; lia.
Qed.

End DebounceRuns.

(** X7. Between events the debounce sketch keeps its state coherent.  After
    [setup], for either comparator reading, and any sequence of comparator
    edges and passes of [loop]: the pin level is the one of [valveOpen] and
    is the level written last, no two consecutive writes are equal, the
    timer stays within 0..DEBOUNCE_DELAY_TIME (so its decrement never wraps),
    the timer is zero whenever the valve is Open, and the comparator holds
    either the opening routine on FALLING or the closing routine on
    RISING. *)
Theorem debounce_state_coherent_always :
  forall (lvl : Level) (comp : bool) (evs : list Debounce.Event),
    let s := Debounce.run evs (Debounce.setup comp (Debounce.boot lvl)) in
    Debounce.pin13 s = levelOf (Debounce.valveOpen s) /\
    hd_error (Debounce.writes s) = Some (Debounce.pin13 s) /\
    alternating (Debounce.writes s) = true /\
    0 <= Debounce.debounceTimer s <= Debounce.DEBOUNCE_DELAY_TIME /\
    (Debounce.valveOpen s = true -> Debounce.debounceTimer s = 0) /\
    (Debounce.armed s
     = Some (Debounce.moistureLevelLowInterrupt_isr, FALLING) \/
     Debounce.armed s
     = Some (Debounce.moistureLevelHighInterrupt_isr, RISING)).
Proof.
  intros lvl comp evs s.
  exact (debounce_run_consistent evs _ (debounce_setup_consistent comp lvl)).
Qed.

Lemma debounce_state_coherent_always_witness :
  let evs := repeat Debounce.Wake 7
             ++ [Debounce.Comparator FALLING; Debounce.Wake] in
  Debounce.debounceTimer
    (Debounce.run evs (Debounce.setup true (Debounce.boot LOW)))
  = 0.
Proof.
  intros evs.
  destruct (debounce_state_coherent_always LOW true evs)
    as (_ & _ & _ & _ & Hopen & _).
  apply Hopen. vm_compute. reflexivity.
Defined.

(** X8. A dry edge that arrives while the timer runs is lost.  Once the
    closing routine is the armed one and the valve is Closed, no sequence of
    passes of [loop] and comparator edges other than RISING opens the valve,
    writes the pin or changes the armed routine, however long it is.  This
    is the state [setup] leaves after a dry reading, and the state left by a
    FALLING edge handled while the timer is above zero. *)
Theorem debounce_closed_until_rising :
  forall (s : Debounce.State) (evs : list Debounce.Event),
    Debounce.valveOpen s = false ->
    forallb (fun ev => negb (Debounce.isRising ev)) evs = true ->
    (Debounce.armed s
     = Some (Debounce.moistureLevelHighInterrupt_isr, RISING) ->
       Debounce.valveOpen (Debounce.run evs s) = false /\
       Debounce.writes (Debounce.run evs s) = Debounce.writes s) /\
    (forall lvl : Level,
       Debounce.valveOpen
         (Debounce.run evs (Debounce.setup false (Debounce.boot lvl)))
       = false) /\
    (Debounce.armed s
     = Some (Debounce.moistureLevelLowInterrupt_isr, FALLING) ->
     Debounce.debounceTimer s <> 0 ->
       Debounce.valveOpen
         (Debounce.run (Debounce.Comparator FALLING :: evs) s) = false).
Proof.
  intros s evs Hv Hno.
  split; [|split].
  - intros Ha.
    destruct (debounce_waits_for_rising evs s Hv Ha Hno) as (H1 & _ & _ & H2).
    split; assumption.
  - intros lvl.
    destruct (setup_fields false lvl) as (Hv0 & _ & _ & _ & Ha0 & _).
    destruct (debounce_waits_for_rising evs _ Hv0 Ha0 Hno) as (H1 & _).
    exact H1.
  - intros Ha Hnz.
    change (Debounce.run (Debounce.Comparator FALLING :: evs) s)
      with (Debounce.run evs (Debounce.comparatorEdge FALLING s)).
    rewrite (debounce_falling_handled s Ha).
    assert (Heq : Debounce.openWaterValve
                    (Debounce.enableInterrupt
                       Debounce.moistureLevelHighInterrupt_isr RISING s)
                  = Debounce.enableInterrupt
                      Debounce.moistureLevelHighInterrupt_isr RISING s).
    { unfold Debounce.openWaterValve. cbn. rewrite Hv. cbn.
      destruct (Z.eqb_spec (Debounce.debounceTimer s) 0);
        [contradiction | reflexivity]. }
    rewrite Heq.
    destruct (debounce_waits_for_rising evs
                (Debounce.enableInterrupt
                   Debounce.moistureLevelHighInterrupt_isr RISING s))
      as (H1 & _); [exact Hv | reflexivity | exact Hno | exact H1].
Qed.

Lemma debounce_closed_until_rising_witness :
  let s := Debounce.setup true (Debounce.boot LOW) in
  let evs := repeat Debounce.Wake 9 ++ [Debounce.Comparator FALLING] in
  Debounce.valveOpen (Debounce.run (Debounce.Comparator FALLING :: evs) s)
  = false.
Proof.
  intros s evs.
  assert (Hv : Debounce.valveOpen s = false) by reflexivity.
  assert (Hno : forallb (fun ev => negb (Debounce.isRising ev)) evs = true)
    by reflexivity.
  destruct (debounce_closed_until_rising s evs Hv Hno) as (_ & _ & Hlost).
  apply Hlost; [reflexivity | vm_compute; discriminate].
Defined.

(** X9. Every close at run time starts the full delay.  When the closing
    routine is armed on RISING and the valve is Open, the RISING edge closes
    the valve with one LOW write, loads the timer with DEBOUNCE_DELAY_TIME
    and arms the opening routine on FALLING; from there no sequence of
    comparator edges and passes of [loop] with fewer than
    DEBOUNCE_DELAY_TIME passes opens the valve or writes the pin again. *)
Theorem rising_edge_closes_and_holds :
  forall (s : Debounce.State) (evs : list Debounce.Event),
    Debounce.valveOpen s = true ->
    Debounce.armed s
    = Some (Debounce.moistureLevelHighInterrupt_isr, RISING) ->
    let s1 := Debounce.comparatorEdge RISING s in
    Debounce.valveOpen s1 = false /\
    Debounce.pin13 s1 = LOW /\
    Debounce.debounceTimer s1 = Debounce.DEBOUNCE_DELAY_TIME /\
    Debounce.writes s1 = LOW :: Debounce.writes s /\
    Debounce.armed s1
    = Some (Debounce.moistureLevelLowInterrupt_isr, FALLING) /\
    (Debounce.wakes evs < Debounce.DEBOUNCE_DELAY_TIME ->
       Debounce.valveOpen (Debounce.run evs s1) = false /\
       Debounce.pin13 (Debounce.run evs s1) = LOW /\
       Debounce.writes (Debounce.run evs s1) = LOW :: Debounce.writes s).
Proof.
  intros s evs Hv Ha s1.
  assert (Heq : s1 = Debounce.enableInterrupt
                       Debounce.moistureLevelLowInterrupt_isr FALLING
                       (Debounce.set_debounceTimer Debounce.DEBOUNCE_DELAY_TIME
                          (Debounce.set_valveOpen false
                             (Debounce.digitalWrite LOW s)))).
  { subst s1. rewrite (debounce_rising_handled s Ha).
    unfold Debounce.closeWaterValve. rewrite Hv. reflexivity. }
  assert (Hv1 : Debounce.valveOpen s1 = false) by (rewrite Heq; reflexivity).
  assert (Hp1 : Debounce.pin13 s1 = LOW) by (rewrite Heq; reflexivity).
  assert (Ht1 : Debounce.debounceTimer s1 = Debounce.DEBOUNCE_DELAY_TIME)
    by (rewrite Heq; reflexivity).
  assert (Hw1 : Debounce.writes s1 = LOW :: Debounce.writes s)
    by (rewrite Heq; reflexivity).
  split; [exact Hv1|]. split; [exact Hp1|]. split; [exact Ht1|].
  split; [exact Hw1|]. split; [rewrite Heq; reflexivity|].
  intros Hlt.
  destruct (run_stays_closed evs s1 Hv1) as (Hv2 & Hp2 & Hw2).
  - rewrite Ht1. reflexivity.
  - rewrite Ht1. exact Hlt.
  - split; [exact Hv2|]. split; congruence.
Qed.

Lemma rising_edge_closes_and_holds_witness :
  let s := Debounce.mkState true 0 HIGH
             (Some (Debounce.moistureLevelHighInterrupt_isr, RISING)) [] in
  let evs := [Debounce.Comparator FALLING; Debounce.Wake;
              Debounce.Comparator RISING; Debounce.Comparator FALLING] in
  Debounce.valveOpen
    (Debounce.run evs (Debounce.comparatorEdge RISING s)) = false.
Proof.
  intros s evs.
  assert (Hv : Debounce.valveOpen s = true) by reflexivity.
  assert (Ha : Debounce.armed s
               = Some (Debounce.moistureLevelHighInterrupt_isr, RISING))
    by reflexivity.
  destruct (rising_edge_closes_and_holds s evs Hv Ha)
    as (_ & _ & _ & _ & _ & Hhold).
  apply Hhold. vm_compute. reflexivity.
Defined.

(** X10. The two valve routines of the debounce sketch are idempotent as
    state transformers, log included: a second [openWaterValve] or
    [closeWaterValve] in a row returns the state of the first.  An open
    right after a real close is absorbed, and a close right after a real
    open is never suppressed: it writes LOW and loads the timer. *)
Theorem valve_routines_idempotent :
  forall s : Debounce.State,
    Debounce.openWaterValve (Debounce.openWaterValve s)
    = Debounce.openWaterValve s /\
    Debounce.closeWaterValve (Debounce.closeWaterValve s)
    = Debounce.closeWaterValve s /\
    (Debounce.valveOpen s = true ->
       Debounce.openWaterValve (Debounce.closeWaterValve s)
       = Debounce.closeWaterValve s) /\
    (Debounce.valveOpen s = false -> Debounce.debounceTimer s = 0 ->
       let t := Debounce.closeWaterValve (Debounce.openWaterValve s) in
       Debounce.valveOpen t = false /\
       Debounce.debounceTimer t = Debounce.DEBOUNCE_DELAY_TIME /\
       Debounce.writes t = LOW :: HIGH :: Debounce.writes s).
Proof.
  intros s. split; [|split; [|split]].
  - destruct (openWaterValve_cases s) as [(_ & _ & Heq)|(_ & Heq)].
    + rewrite Heq. reflexivity.
    + rewrite !Heq. reflexivity.
  - destruct (closeWaterValve_cases s) as [(_ & Heq)|(_ & Heq)].
    + rewrite Heq. reflexivity.
    + rewrite !Heq. reflexivity.
  - intros Hv.
    destruct (closeWaterValve_cases s) as [(_ & Heq)|(Hc & _)];
      [|congruence].
    rewrite Heq. reflexivity.
  - intros Hv Hz t. subst t.
    destruct (openWaterValve_cases s) as [(_ & _ & Heq)|([Ho|Hnz] & _)];
      [ | congruence | contradiction].
    rewrite Heq. repeat split.
Qed.

Lemma valve_routines_idempotent_witness :
  let opened := Debounce.mkState true 0 HIGH None [] in
  let closed := Debounce.mkState false 0 LOW None [] in
  Debounce.openWaterValve (Debounce.closeWaterValve opened)
  = Debounce.closeWaterValve opened /\
  Debounce.writes
    (Debounce.closeWaterValve (Debounce.openWaterValve closed))
  = [LOW; HIGH].
Proof.
  intros opened closed.
  destruct (valve_routines_idempotent opened) as (_ & _ & Habsorb & _).
  destruct (valve_routines_idempotent closed) as (_ & _ & _ & Hclose).
  split.
  - apply Habsorb. reflexivity.
  - apply Hclose; reflexivity.
Defined.

(** X11. The debounce timer counts passes of [loop] down to zero and stops
    there.  For a timer value that an [unsigned long] can hold, after [n]
    passes the timer is [max 0 (t - n)]: it loses exactly one per pass,
    never goes below zero and never wraps around. *)
Theorem loop_counts_timer_down :
  forall (n : nat) (s : Debounce.State),
    0 <= Debounce.debounceTimer s < 2 ^ 32 ->
    let s' := Debounce.calls (repeat Debounce.Tick n) s in
    Debounce.debounceTimer s'
    = Z.max 0 (Debounce.debounceTimer s - Z.of_nat n) /\
    Debounce.valveOpen s' = Debounce.valveOpen s /\
    Debounce.writes s' = Debounce.writes s.
Proof.
  intros n s Hr s'. subst s'.
  split; [apply ticks_count_down; exact Hr | apply ticks_keep_valve].
Qed.

Lemma loop_counts_timer_down_witness :
  Debounce.debounceTimer
    (Debounce.calls (repeat Debounce.Tick 10)
       (Debounce.closeWaterValve (Debounce.mkState true 0 HIGH None [])))
  = 0.
Proof.
  pose (s := Debounce.closeWaterValve (Debounce.mkState true 0 HIGH None [])).
  assert (Hr : 0 <= Debounce.debounceTimer s < 2 ^ 32)
    by (split; [discriminate | reflexivity]).
  destruct (loop_counts_timer_down 10 s Hr) as (Ht & _).
  exact Ht.
Defined.

(** ** The sketch without valve state between events *)

Section StatelessRuns.
Import Stateless.

Lemma stateless_step_consistent (ev : Event) (s : State) :
  consistent s -> consistent (step ev s).
Proof.
  destruct s as [p a l].
  unfold consistent, writes. cbn -[alternating].
  intros (Hh & Halt & Hcase).
  destruct ev as [|e]; cbn -[alternating].
  - split; [exact Hh|]. split; [exact Halt|]. exact Hcase.
  - unfold comparatorEdge. cbn -[alternating].
    destruct Hcase as [(Hp & [Ha|Ha])|(Hp & Ha)]; subst p a;
      destruct e; cbn -[alternating];
      try (split; [exact Hh|]; split; [exact Halt|]; tauto).
    + split; [reflexivity|]. split; [|right; split; reflexivity].
      apply alternating_push; [exact Halt | rewrite Hh; discriminate].
    + split; [reflexivity|]. split; [|right; split; reflexivity].
      apply alternating_push; [exact Halt | rewrite Hh; discriminate].
    + split; [reflexivity|].
      split; [|left; split; [reflexivity | right; reflexivity]].
      apply alternating_push; [exact Halt | rewrite Hh; discriminate].
Qed.

Lemma stateless_run_consistent (evs : list Event) :
  forall s : State, consistent s -> consistent (run evs s).
Proof.
  induction evs as [|ev evs IH]; intros s Hc.
  - exact Hc.
  - change (run (ev :: evs) s) with (run evs (step ev s)).
    apply IH, stateless_step_consistent, Hc.
Qed.

Lemma stateless_setup_consistent (lvl : Level) :
  consistent (setup (boot lvl)).
Proof.
  unfold consistent. cbn.
  split; [reflexivity|]. split; [reflexivity|].
  left. split; [reflexivity | left; reflexivity].
Qed.

Lemma stateless_run_app (evs evs' : list Event) (s : State) :
  run (evs ++ evs') s = run evs' (run evs s).
Proof. unfold run. apply fold_left_app. Qed.

Lemma stateless_rising_ignored_at_boot (n : nat) (lvl : Level) :
  run (repeat (Comparator RISING) n) (setup (boot lvl)) = setup (boot lvl).
Proof.
  induction n as [|n IH].
  - reflexivity.
  - change (run (repeat (Comparator RISING) (S n)) (setup (boot lvl)))
      with (run (repeat (Comparator RISING) n)
              (comparatorEdge RISING (setup (boot lvl)))).
    exact IH.
Qed.

End StatelessRuns.

(** X12. Driven by its interrupts, the sketch without valve state issues no
    redundant write, although its valve routines write unconditionally.
    After [setup] and any sequence of comparator edges and passes of
    [loop]: the pin holds the level written last, no two consecutive writes
    are equal, and the armed routine is the one that changes the pin: the
    opening routine while the pin is LOW, the closing routine, on FALLING,
    while it is HIGH. *)
Theorem stateless_interrupts_alternate :
  forall (lvl : Level) (evs : list Stateless.Event),
    let s := Stateless.run evs (Stateless.setup (Stateless.boot lvl)) in
    hd_error (Stateless.writes s) = Some (Stateless.pin13 s) /\
    alternating (Stateless.writes s) = true /\
    ((Stateless.pin13 s = LOW /\
      (Stateless.armed s = Some (Stateless.moistureLowInterrupt_isr, FALLING) \/
       Stateless.armed s = Some (Stateless.moistureLowInterrupt_isr, RISING)))
     \/
     (Stateless.pin13 s = HIGH /\
      Stateless.armed s = Some (Stateless.moistureHighInterrupt_isr, FALLING))).
Proof.
  intros lvl evs s.
  exact (stateless_run_consistent evs _ (stateless_setup_consistent lvl)).
Qed.

(** X13. The first edges after [setup] in the sketch without valve state.
    [setup] arms the opening routine on FALLING, so RISING edges are ignored
    until a first FALLING edge, which opens the valve; that routine arms the
    closing routine on FALLING again, so RISING edges are still ignored and
    the next FALLING edge closes the valve.  Only then is the opening
    routine armed on RISING. *)
Theorem stateless_first_edges :
  forall (lvl : Level) (n m : nat),
    let s0 := Stateless.setup (Stateless.boot lvl) in
    let rising k := repeat (Stateless.Comparator RISING) k in
    let falling := [Stateless.Comparator FALLING] in
    let s1 := Stateless.run (rising n ++ falling) s0 in
    let s2 := Stateless.run (rising m ++ falling) s1 in
    Stateless.run (rising n) s0 = s0 /\
    Stateless.writes s1 = [HIGH; LOW] /\
    Stateless.armed s1
    = Some (Stateless.moistureHighInterrupt_isr, FALLING) /\
    Stateless.writes s2 = [LOW; HIGH; LOW] /\
    Stateless.armed s2 = Some (Stateless.moistureLowInterrupt_isr, RISING).
Proof.
  intros lvl n m s0 rising falling s1 s2.
  assert (H0 : Stateless.run (rising n) s0 = s0)
    by apply stateless_rising_ignored_at_boot.
  assert (Hs1 : s1 = Stateless.comparatorEdge FALLING s0).
  { subst s1. rewrite stateless_run_app, H0. reflexivity. }
  assert (Hkeep : forall k, Stateless.run (rising k) s1 = s1).
  { intros k. rewrite Hs1. induction k as [|k IH]; [reflexivity|].
    change (Stateless.run (rising (S k)) (Stateless.comparatorEdge FALLING s0))
      with (Stateless.run (rising k)
              (Stateless.comparatorEdge RISING
                 (Stateless.comparatorEdge FALLING s0))).
    exact IH. }
  assert (Hs2 : s2 = Stateless.comparatorEdge FALLING s1).
  { subst s2. rewrite stateless_run_app, Hkeep. reflexivity. }
  split; [exact H0|].
  rewrite Hs2, Hs1. subst s0. destruct lvl; repeat split.
Qed.
